(** * FTSE 100 historical data scraper, part 2: a shallow embedding

    This development models the functions of
    [scraping-scripts/ftse100_scraper_part_2.py]:

    - [months_between_date]         (source lines 13-26)
    - [common_constituents]         (source lines 29-46)
    - [match_company_symbol]        (source lines 49-67)
    - [scrape_constituents_symbols] (source lines 70-104)
    - [scrape_daily_returns]        (source lines 107-142)
    - [main]                        (source lines 145-161)

    Python exceptions are modelled by the sum type [result]; the two
    network operations of [investpy] are oracles (Section variables) that
    either return a value or raise.  Data frames are lists of records, in
    row order.  The table [common_constituents] slices is indexed by the
    dates as text, and [.loc[start:end]] is the label slice of pandas on
    such an index: by position between the places of the two bounds, with
    a [KeyError] for a bound that has no place. *)

From Stdlib Require Import List ZArith Bool Lia String Ascii Permutation PeanoNat.
Import ListNotations.
Local Open Scope string_scope.
Local Open Scope list_scope.
Local Open Scope Z_scope.

Set Implicit Arguments.

(* ====================================================================== *)
(** ** Exceptions *)

(** The exceptions the modelled code can meet.  [ValueError] is what
    [datetime.strptime] raises on a string that is not a calendar date and
    what [pd.merge] raises on a key label that is not unique, [IndexError]
    what [DataFrame.iat] raises out of range, [KeyError] what a label slice
    raises on a bound it cannot place, and [ExternalError] stands for
    whatever an [investpy] call raises (connection error, no result found,
    no data). *)
Inductive exn : Type :=
| ValueError
| IndexError
| KeyError
| ExternalError.

Inductive result (A : Type) : Type :=
| Ok (a : A)
| Raise (e : exn).

Arguments Ok {A} a.
Arguments Raise {A} e.

Definition bind {A B : Type} (r : result A) (k : A -> result B) : result B :=
  match r with
  | Ok a => k a
  | Raise e => Raise e
  end.

Notation "x <- r ;; k" := (bind r (fun x => k))
  (at level 61, r at next level, right associativity).

Definition is_ok {A : Type} (r : result A) : bool :=
  match r with Ok _ => true | Raise _ => false end.

(* ====================================================================== *)
(** ** Calendar dates and [datetime.strptime(_, "%Y-%m-%d")] *)

Record date : Type := mkdate { year : Z; month : Z; day : Z }.

Definition date_eqb (a b : date) : bool :=
  (year a =? year b) && (month a =? month b) && (day a =? day b).

(** Chronological order on dates: lexicographic on (year, month, day). *)
Definition date_leb (a b : date) : bool :=
  (year a <? year b)
  || ((year a =? year b)
      && ((month a <? month b)
          || ((month a =? month b) && (day a <=? day b)))).

Definition date_le (a b : date) : Prop := date_leb a b = true.

Definition is_leap (y : Z) : bool :=
  (y mod 4 =? 0) && (negb (y mod 100 =? 0) || (y mod 400 =? 0)).

Definition days_in_month (y m : Z) : Z :=
  if m =? 2 then (if is_leap y then 29 else 28)
  else if (m =? 4) || (m =? 6) || (m =? 9) || (m =? 11) then 30
  else 31.

(** The constructor [datetime(year, month, day)]: it refuses a year outside
    1..9999, a month outside 1..12 and a day the month does not have. *)
Definition make_date (y m d : Z) : result date :=
  if (1 <=? y) && (y <=? 9999) && (1 <=? m) && (m <=? 12)
     && (1 <=? d) && (d <=? days_in_month y m)
  then Ok (mkdate y m d)
  else Raise ValueError.

Definition digit (c : ascii) : option Z :=
  let n := Z.of_N (N_of_ascii c) in
  if (48 <=? n) && (n <=? 57) then Some (n - 48) else None.

Definition digit_in (lo hi : Z) (c : ascii) : option Z :=
  match digit c with
  | Some v => if (lo <=? v) && (v <=? hi) then Some v else None
  | None => None
  end.

(** [%Y] is the pattern [\d\d\d\d]. *)
Definition directive_Y (l : list ascii) : option (Z * list ascii) :=
  match l with
  | a :: b :: c :: d :: rest =>
      match digit a, digit b, digit c, digit d with
      | Some a, Some b, Some c, Some d =>
          Some (a * 1000 + b * 100 + c * 10 + d, rest)
      | _, _, _, _ => None
      end
  | _ => None
  end.

(** One alternative of a pattern made of two character classes. *)
Definition two_chars (lo1 hi1 lo2 hi2 : Z) (l : list ascii)
  : list (Z * list ascii) :=
  match l with
  | a :: b :: rest =>
      match digit_in lo1 hi1 a, digit_in lo2 hi2 b with
      | Some a, Some b => [(a * 10 + b, rest)]
      | _, _ => []
      end
  | _ => []
  end.

Definition one_char (lo hi : Z) (l : list ascii) : list (Z * list ascii) :=
  match l with
  | a :: rest =>
      match digit_in lo hi a with
      | Some a => [(a, rest)]
      | None => []
      end
  | [] => []
  end.

(** [%m] is [1[0-2]|0[1-9]|[1-9]]: the ways it can match a prefix of [l],
    in the order the regular-expression engine tries them. *)
Definition directive_m (l : list ascii) : list (Z * list ascii) :=
  two_chars 1 1 0 2 l ++ two_chars 0 0 1 9 l ++ one_char 1 9 l.

(** [%d] is [3[0-1]|[1-2]\d|0[1-9]|[1-9]| [1-9]]. *)
Definition directive_d (l : list ascii) : list (Z * list ascii) :=
  two_chars 3 3 0 1 l ++ two_chars 1 2 0 9 l ++ two_chars 0 0 1 9 l
  ++ one_char 1 9 l
  ++ match l with
     | " "%char :: rest => one_char 1 9 rest
     | _ => []
     end.

Definition literal_dash (l : list ascii) : option (list ascii) :=
  match l with
  | "-"%char :: rest => Some rest
  | _ => None
  end.

(** The tail of the pattern after [%m]: a dash, then [%d].  The match is
    not anchored at the end of the string, so the first alternative of
    [%d] that matches is the one taken. *)
Definition after_month (l : list ascii) : option (Z * list ascii) :=
  match literal_dash l with
  | Some l' => hd_error (directive_d l')
  | None => None
  end.

(** Backtracking over the alternatives of [%m]: the first one after which
    the tail of the pattern matches. *)
Fixpoint first_month (alts : list (Z * list ascii))
  : option (Z * Z * list ascii) :=
  match alts with
  | [] => None
  | (m, l) :: alts' =>
      match after_month l with
      | Some (d, rest) => Some (m, d, rest)
      | None => first_month alts'
      end
  end.

(** [re.match] of the pattern for ["%Y-%m-%d"]: the three fields and what
    is left of the string. *)
Definition regex_match (l : list ascii) : option (Z * Z * Z * list ascii) :=
  match directive_Y l with
  | Some (y, l1) =>
      match literal_dash l1 with
      | Some l2 =>
          match first_month (directive_m l2) with
          | Some (m, d, rest) => Some (y, m, d, rest)
          | None => None
          end
      | None => None
      end
  | None => None
  end.

(** [datetime.strptime(s, "%Y-%m-%d")] on an ASCII string: the pattern must
    match, nothing may remain unconverted, and the fields must form a date. *)
Definition strptime (s : string) : result date :=
  match regex_match (list_ascii_of_string s) with
  | Some (y, m, d, []) => make_date y m d
  | Some (_, _, _, _ :: _) => Raise ValueError
  | None => Raise ValueError
  end.

(* ====================================================================== *)
(** ** Date-window calculator (source lines 13-26) *)

Definition months_between_date (start_date end_date : string) : result Z :=
  end_date <- strptime end_date ;;
  start_date <- strptime start_date ;;
  Ok ((year end_date - year start_date) * 12
      + (month end_date - month start_date) + 1).


(* ====================================================================== *)
(** ** Writing a date as yyyy-mm-dd *)

Definition digit_char (k : Z) : ascii := ascii_of_N (Z.to_N (48 + k)).

Definition two_digits (n : Z) : list ascii :=
  [digit_char (n / 10); digit_char (n mod 10)].

Definition four_digits (n : Z) : list ascii :=
  [digit_char (n / 1000); digit_char (n / 100 mod 10);
   digit_char (n / 10 mod 10); digit_char (n mod 10)].

(** The zero-padded writing ["yyyy-mm-dd"] of a date, the format the
    docstrings of the source ask for. *)
Definition isoformat (d : date) : string :=
  string_of_list_ascii
    (four_digits (year d)
     ++ "-"%char :: two_digits (month d)
     ++ "-"%char :: two_digits (day d)).

(** A date of the calendar, as [datetime] accepts them. *)
Definition valid_date (d : date) : Prop :=
  1 <= year d <= 9999 /\ 1 <= month d <= 12
  /\ 1 <= day d <= days_in_month (year d) (month d).

(* ====================================================================== *)
(** ** Data frames *)

(** A row of the date-indexed constituents table that [common_constituents]
    reads: the index label, the [Symbol] column and the cells of whatever
    other columns the table has.  [None] is a missing cell (NaN).  The
    index holds the dates as text (["yyyy-mm-dd"], as a file gives them),
    and labels are compared as strings. *)
Record ConstituentRow : Type := mkConstituentRow {
  Date : string;
  Symbol : option string;
  other_cells : list (option string)
}.

(** A row of the membership table read from [historical_consts.csv],
    columns [Date] and [Company]. *)
Record MembershipRecord : Type := mkMembershipRecord {
  mr_Date : string;
  mr_Company : string
}.

(** A row of the table the symbol resolver builds, columns [Company] and
    [Symbol]; the empty string is the symbol recorded on a failed lookup. *)
Record SymbolMapping : Type := mkSymbolMapping {
  sm_Company : string;
  sm_Symbol : string
}.

(** A row of the matcher's output, columns [Date], [Company], [Symbol]. *)
Record MatchedConstituent : Type := mkMatchedConstituent {
  mc_Date : string;
  mc_Company : string;
  mc_Symbol : string
}.

(** [DataFrame.drop_duplicates(key)]: the first row of every key value is
    kept, in row order. *)
Fixpoint drop_duplicates_from {A : Type} (key : A -> string)
  (seen : list string) (l : list A) : list A :=
  match l with
  | [] => []
  | x :: l' =>
      if existsb (String.eqb (key x)) seen
      then drop_duplicates_from key seen l'
      else x :: drop_duplicates_from key (key x :: seen) l'
  end.

Definition drop_duplicates {A : Type} (key : A -> string) (l : list A)
  : list A :=
  drop_duplicates_from key [] l.

(** Positional slice [df.iloc[a:b]]. *)
Definition iloc {A : Type} (a b : nat) (l : list A) : list A :=
  firstn (b - a) (skipn a l).

(* ====================================================================== *)
(** ** Constituent filter (source lines 29-46) *)

(** *** The label slice [constituents.loc[start:end]]

    [Index.slice_locs] places each bound with [Index.get_slice_bound] and
    the frame is then cut by position between the two places. *)

Fixpoint is_monotonic_increasing (labels : list string) : bool :=
  match labels with
  | x :: ((y :: _) as rest) => String.leb x y && is_monotonic_increasing rest
  | _ => true
  end.

Fixpoint is_monotonic_decreasing (labels : list string) : bool :=
  match labels with
  | x :: ((y :: _) as rest) => String.leb y x && is_monotonic_decreasing rest
  | _ => true
  end.

Inductive side : Type :=
| side_left
| side_right.

(** [searchsorted(label, side)] on labels in ascending order: the number
    of leading labels below [label] (side left) or not above it (side
    right). *)
Fixpoint searchsorted (labels : list string) (label : string) (sd : side)
  : nat :=
  match labels with
  | [] => O
  | x :: rest =>
      if match sd with
         | side_left => String.ltb x label
         | side_right => String.leb x label
         end
      then S (searchsorted rest label sd)
      else O
  end.

(** [Index._searchsorted_monotonic]: only a monotonic index gives a place
    to a label it does not hold; on a decreasing one the search runs on
    the reversed index, from the other side. *)
Definition searchsorted_monotonic (labels : list string) (label : string)
  (sd : side) : result nat :=
  if is_monotonic_increasing labels
  then Ok (searchsorted labels label sd)
  else if is_monotonic_decreasing labels
  then Ok (List.length labels
           - searchsorted (rev labels) label
               match sd with
               | side_left => side_right
               | side_right => side_left
               end)%nat
  else Raise KeyError.

(** Position of the first label equal to [label]. *)
Fixpoint first_index (label : string) (labels : list string) : option nat :=
  match labels with
  | [] => None
  | x :: rest =>
      if String.eqb label x then Some O
      else match first_index label rest with
           | Some i => Some (S i)
           | None => None
           end
  end.

(** [Index.get_slice_bound(label, side)].  [get_loc] finds a label the
    index holds: a position when it occurs once, a slice when its
    occurrences are consecutive, and otherwise a mask that stands for no
    slice, which is a [KeyError].  The bound is the start of the run (side
    left) or its end (side right).  A label the index does not hold is
    placed by [searchsorted_monotonic]. *)
Definition get_slice_bound (labels : list string) (label : string)
  (sd : side) : result nat :=
  match first_index label labels with
  | Some start =>
      let n := count_occ string_dec labels label in
      if forallb (String.eqb label) (firstn n (skipn start labels))
      then Ok match sd with
              | side_left => start
              | side_right => (start + n)%nat
              end
      else Raise KeyError
  | None => searchsorted_monotonic labels label sd
  end.

Definition slice_locs (labels : list string) (start end_ : string)
  : result (nat * nat) :=
  start_slice <- get_slice_bound labels start side_left ;;
  end_slice <- get_slice_bound labels end_ side_right ;;
  Ok (start_slice, end_slice).

(** [constituents.loc[start_date:end_date]]: the bounds are the two
    strings as given (without UTC offset), placed among the index labels. *)
Definition loc (constituents : list ConstituentRow)
  (start_date end_date : string) : result (list ConstituentRow) :=
  bounds <- slice_locs (map Date constituents) start_date end_date ;;
  Ok (iloc (fst bounds) (snd bounds) constituents).

Definition is_some {A : Type} (o : option A) : bool :=
  match o with Some _ => true | None => false end.

(** [dropna(axis=0, how='any')]: a row with any missing cell is dropped. *)
Definition dropna (constituents : list ConstituentRow)
  : list ConstituentRow :=
  filter (fun r => is_some (Symbol r) && forallb is_some (other_cells r))
         constituents.

(** The [Symbol] column of a table without missing cells. *)
Fixpoint symbol_column (constituents : list ConstituentRow) : list string :=
  match constituents with
  | [] => []
  | r :: rest =>
      match Symbol r with
      | Some s => s :: symbol_column rest
      | None => symbol_column rest
      end
  end.

(** One more occurrence of key [k] in a table of counters. *)
Fixpoint bump (k : string) (acc : list (string * nat)) : list (string * nat) :=
  match acc with
  | [] => [(k, 1%nat)]
  | (k', n) :: acc' =>
      if String.eqb k k' then (k', S n) :: acc'
      else (k', n) :: bump k acc'
  end.

(** [value_counts()]: every distinct value with its number of occurrences.
    The order pandas gives the entries (by count) is not modelled; the
    properties below speak of the entries as a set. *)
Definition value_counts (l : list string) : list (string * nat) :=
  fold_left (fun acc k => bump k acc) l [].

Definition common_constituents (constituents : list ConstituentRow)
  (start_date end_date : string) : result (list string) :=
  constituents <- loc constituents start_date end_date ;;
  let constituents := dropna constituents in
  f <- months_between_date start_date end_date ;;
  let freq := value_counts (symbol_column constituents) in
  let symbols :=
    map fst (filter (fun p => Z.of_nat (snd p) =? f) freq) in
  Ok symbols.

(** Number of rows of a table that carry the identifier [id]. *)
Definition occurrences (id : string) (constituents : list ConstituentRow)
  : nat :=
  List.length (filter (fun r => match Symbol r with
                           | Some s => String.eqb s id
                           | None => false
                           end) constituents).

(* ====================================================================== *)
(** ** Constituent-symbol matcher (source lines 49-67) *)

(** [pd.merge(left, symbols, on='Company')], an inner join: every left row
    paired with every mapping row of the same company.  Rows are listed in
    left order; the properties below speak of them up to order. *)
Definition merge (left : list MembershipRecord) (symbols : list SymbolMapping)
  : list MatchedConstituent :=
  flat_map
    (fun l =>
       map (fun r => mkMatchedConstituent (mr_Date l) (mr_Company l) (sm_Symbol r))
           (filter (fun r => String.eqb (mr_Company l) (sm_Company r)) symbols))
    left.

Definition match_company_symbol (constituents : list MembershipRecord)
  (symbols : list SymbolMapping) : list MatchedConstituent :=
  fold_left
    (fun constituents_w_symbols i =>
       let merged :=
         merge (iloc (i * 100)%nat ((i + 1) * 100)%nat constituents) symbols in
       constituents_w_symbols ++ merged)
    (seq 0 (List.length constituents / 100)%nat)
    [].

(* ====================================================================== *)
(** ** The external service *)

Section Scraper.

(** What [investpy.search_quotes(text=..., products=['stocks'],
    countries=['united kingdom'], n_results=1)] answers: a search object, or
    an exception.  Within one run every text is searched once, so the
    service is a function of the text. *)
Variable SearchObj : Type.
Variable symbol : SearchObj -> string.
Variable search_quotes : string -> result SearchObj.

(** The type of a percentage-change value. *)
Variable V : Type.

(** [SearchObj.retrieve_historical_data(from_date, to_date)], reduced to
    its [Date] and [Change Pct] columns, in the order the feed gives the
    rows; or an exception. *)
Variable retrieve_historical_data :
  SearchObj -> string -> string -> result (list (date * V)).

(* ---------------------------------------------------------------------- *)
(** ** Symbol resolver (source lines 70-104) *)

(** The body of the loop: the state is the pair of tables
    [(constituents_symbols, errors)]. *)
Definition resolve_one (st : list SymbolMapping * list string)
  (company : string) : list SymbolMapping * list string :=
  let (constituents_symbols, errors) := st in
  match search_quotes company with
  | Ok search_result =>
      (constituents_symbols
         ++ [mkSymbolMapping company (symbol search_result)],
       errors)
  | Raise _ =>
      (constituents_symbols ++ [mkSymbolMapping company ""],
       errors ++ [company])
  end.

Definition scrape_constituents_symbols (constituents : list MembershipRecord)
  : list SymbolMapping * list string :=
  let constituents := drop_duplicates mr_Company constituents in
  fold_left resolve_one (map mr_Company constituents) ([], []).

(* ---------------------------------------------------------------------- *)
(** ** Returns aggregator (source lines 107-142) *)

(** The wide table: the names of the value columns (the [Date] column is
    the key and is kept apart) and, per row, the date and one cell per
    value column; [None] is an absent value.  When the first symbol is
    called ["Date"] the frame has that label twice: once for the key and
    once in [columns]. *)
Record Wide : Type := mkWide {
  columns : list string;
  rows : list (date * list (option V))
}.

(** The frame of one symbol,
    [reset_index()[['Date','Change Pct']].rename(...).iloc[::-1]]. *)
Definition history_frame (h : list (date * V)) : list (date * V) := rev h.

(** Search a symbol and fetch its history (source lines 121-125 and
    129-133). *)
Definition fetch (text start_date end_date : string)
  : result (list (date * V)) :=
  search_result <- search_quotes text ;;
  h <- retrieve_historical_data search_result start_date end_date ;;
  Ok (history_frame h).

Definition seed (name : string) (returns : list (date * V)) : Wide :=
  mkWide [name] (map (fun p => (fst p, [Some (snd p)])) returns).

Definition matching (d : date) (returns : list (date * V))
  : list (date * V) :=
  filter (fun p => date_eqb (fst p) d) returns.

(** The rows a left row gives in an outer join: one per right row of the
    same date, or one with an absent value when there is none. *)
Definition join_left_row (returns : list (date * V))
  (r : date * list (option V)) : list (date * list (option V)) :=
  match matching (fst r) returns with
  | [] => [(fst r, snd r ++ [None])]
  | ms => map (fun p => (fst r, snd r ++ [Some (snd p)])) ms
  end.

(** The right rows whose date no left row has: absent in every left
    column. *)
Definition right_only (width : nat) (left_dates : list date)
  (returns : list (date * V)) : list (date * list (option V)) :=
  map (fun p => (fst p, repeat None width ++ [Some (snd p)]))
      (filter (fun p => negb (existsb (date_eqb (fst p)) left_dates))
              returns).

(** The outer join on the key of the running table with the frame of the
    symbol [name].  Rows are listed left rows first; the properties below
    do not depend on the order.  The symbols are distinct, so [name] is
    the name of no left column. *)
Definition outer_join (searched_data : Wide) (name : string)
  (returns : list (date * V)) : Wide :=
  mkWide
    (columns searched_data ++ [name])
    (flat_map (join_left_row returns) (rows searched_data)
     ++ right_only (List.length (columns searched_data))
                   (map fst (rows searched_data)) returns).

(** [pd.merge(searched_data, returns, how='outer', on='Date')], where
    [returns] has the columns [Date] and [name].  The key label must be
    unique in each frame: the merge raises when a value column of the
    running table is called ["Date"], or when [name] is. *)
Definition merge_outer (searched_data : Wide) (name : string)
  (returns : list (date * V)) : result Wide :=
  if existsb (String.eqb "Date") (columns searched_data)
     || String.eqb "Date" name
  then Raise ValueError
  else Ok (outer_join searched_data name returns).

(** The body of the loop over the symbols after the first: whatever the
    [try] block raises, search, fetch or merge, leaves the running table
    as it is. *)
Definition aggregate_one (start_date end_date : string)
  (searched_data : Wide) (text : string) : Wide :=
  match (returns <- fetch text start_date end_date ;;
         merge_outer searched_data text returns) with
  | Ok merged => merged
  | Raise _ => searched_data
  end.

Definition scrape_daily_returns (constituents : list MatchedConstituent)
  (start_date end_date : string) : result Wide :=
  let symbols := map mc_Symbol (drop_duplicates mc_Symbol constituents) in
  match symbols with
  | [] => Raise IndexError
  | first :: others =>
      returns <- fetch first start_date end_date ;;
      Ok (fold_left (aggregate_one start_date end_date) others
                    (seed first returns))
  end.

(** *** Reading the wide table *)

Definition dates (t : Wide) : list date := map fst (rows t).

Fixpoint index_of (s : string) (l : list string) : option nat :=
  match l with
  | [] => None
  | x :: l' =>
      if String.eqb s x then Some O
      else match index_of s l' with
           | Some i => Some (S i)
           | None => None
           end
  end.

(** The cell of column [s] in the first row dated [d]; [None] when the
    value is absent (or there is no such row or column). *)
Definition value_at (t : Wide) (d : date) (s : string) : option V :=
  match find (fun r => date_eqb (fst r) d) (rows t), index_of s (columns t) with
  | Some r, Some j => nth j (snd r) None
  | _, _ => None
  end.

(** The value a series has on a date, if any. *)
Definition series_at (h : list (date * V)) (d : date) : option V :=
  match find (fun p => date_eqb (fst p) d) h with
  | Some p => Some (snd p)
  | None => None
  end.

(* ---------------------------------------------------------------------- *)
(** ** The run (source lines 145-161) *)

(** [main] between its two files: the argument is the table read from
    [historical_consts.csv] (columns [Date] and [Company]) and the result
    is the table handed to [to_csv].  The window is the one the source
    fixes. *)
Definition main (constituents : list MembershipRecord) : result Wide :=
  let start_date := "01/01/2014" in
  let end_date := "01/07/2021" in
  let (symbols, _) := scrape_constituents_symbols constituents in
  let comp_w_symb := match_company_symbol constituents symbols in
  let pc_returns := scrape_daily_returns comp_w_symb start_date end_date in
  pc_returns.

(** *** Reading the resolver's outcome *)

(** The lookup of a company fails. *)
Definition lookup_fails (company : string) : bool :=
  negb (is_ok (search_quotes company)).

(** The row the resolver records for a company. *)
Definition resolved_row (company : string) : SymbolMapping :=
  match search_quotes company with
  | Ok search_result => mkSymbolMapping company (symbol search_result)
  | Raise _ => mkSymbolMapping company ""
  end.

(** *** Reading the aggregator's outcome *)

(** The symbols of a list that are merged into a running table without
    a ["Date"] column, each with its frame, in order: those whose history
    was fetched and that are not called ["Date"]. *)
Definition fetched (start_date end_date : string) (symbols : list string)
  : list (string * list (date * V)) :=
  flat_map (fun s => match fetch s start_date end_date with
                     | Ok h => if String.eqb "Date" s then [] else [(s, h)]
                     | Raise _ => []
                     end) symbols.

(** What the running table is once the frames [done] have been merged:
    one column per frame, in order; one row per date of some frame; and in
    each row, for each frame, the value the frame has on the row's date. *)
Record table_inv (done : list (string * list (date * V))) (t : Wide)
  : Prop := mk_table_inv {
  inv_columns : columns t = map fst done;
  inv_width : forall r, In r (rows t) -> List.length (snd r) = List.length done;
  inv_nodup : NoDup (dates t);
  inv_dates : forall d,
      In d (dates t) <-> exists nh, In nh done /\ In d (map fst (snd nh));
  inv_cells : forall j nh r,
      nth_error done j = Some nh -> In r (rows t) ->
      nth j (snd r) None = series_at (snd nh) (fst r)
}.

(** The outer-join property as the spec states it, for every set of
    symbols, the empty one and symbols of any name included: when the fetch
    of every symbol succeeds with distinct dates, the aggregator returns a
    table with at most one row per date, the union of the symbols' dates
    as its dates, and each symbol's value present on exactly its own
    dates. *)
Definition outer_join_claim (constituents : list MatchedConstituent)
  (start_date end_date : string) : Prop :=
  let symbols := map mc_Symbol (drop_duplicates mc_Symbol constituents) in
  (forall s, In s symbols ->
             exists h, fetch s start_date end_date = Ok h
                       /\ NoDup (map fst h)) ->
  exists t : Wide,
    scrape_daily_returns constituents start_date end_date = Ok t
    /\ NoDup (dates t)
    /\ (forall d, In d (dates t)
                  <-> exists s h, In s symbols
                                  /\ fetch s start_date end_date = Ok h
                                  /\ In d (map fst h))
    /\ (forall s h, In s symbols -> fetch s start_date end_date = Ok h ->
          (forall d v, In (d, v) h -> value_at t d s = Some v)
          /\ (forall d, ~ In d (map fst h) -> value_at t d s = None)).

End Scraper.

(* ====================================================================== *)
(** ** Specification-side readings *)

(** The counter a table of counters holds for key [k] (0 when absent). *)
Fixpoint counter (acc : list (string * nat)) (k : string) : nat :=
  match acc with
  | [] => O
  | (k', n) :: acc' => if String.eqb k k' then n else counter acc' k
  end.

(** A table of counters as [bump] keeps it: one entry per key, no entry
    at zero. *)
Definition counts_wf (acc : list (string * nat)) : Prop :=
  NoDup (map fst acc) /\ Forall (fun p => (0 < snd p)%nat) acc.

(** A row without missing cell. *)
Definition complete (r : ConstituentRow) : bool :=
  is_some (Symbol r) && forallb is_some (other_cells r).

(** The date a row's label denotes lies in the closed window from [lo]
    to [hi]. *)
Definition in_window (lo hi : date) (r : ConstituentRow) : bool :=
  match strptime (Date r) with
  | Ok d => date_leb lo d && date_leb d hi
  | Raise _ => false
  end.

(** The occurrence count of an identifier within the window, after
    dropping the rows with a missing field. *)
Definition window_occurrences (id : string) (lo hi : date)
  (constituents : list ConstituentRow) : nat :=
  List.length
    (filter (fun r => in_window lo hi r && complete r
                      && match Symbol r with
                         | Some s => String.eqb s id
                         | None => false
                         end)
            constituents).

(** The label of a row is the yyyy-mm-dd writing of a calendar date. *)
Definition iso_label (r : ConstituentRow) : bool :=
  match strptime (Date r) with
  | Ok d => String.eqb (Date r) (isoformat d)
  | Raise _ => false
  end.

(** A table indexed by yyyy-mm-dd dates, in ascending order. *)
Definition date_sorted (constituents : list ConstituentRow) : bool :=
  forallb iso_label constituents
  && is_monotonic_increasing (map Date constituents).

(** A membership table sampled at each month end of the first half of
    2014: company A is a constituent in all six months, company B in five
    (it is missing in April). *)
Definition sample_row (y m d : Z) (id name : string) : ConstituentRow :=
  mkConstituentRow (isoformat (mkdate y m d)) (Some id) [Some name].

Definition six_month_table : list ConstituentRow :=
  [ sample_row 2014 1 31 "A" "Alpha plc"; sample_row 2014 1 31 "B" "Beta plc";
    sample_row 2014 2 28 "A" "Alpha plc"; sample_row 2014 2 28 "B" "Beta plc";
    sample_row 2014 3 31 "A" "Alpha plc"; sample_row 2014 3 31 "B" "Beta plc";
    sample_row 2014 4 30 "A" "Alpha plc";
    sample_row 2014 5 30 "A" "Alpha plc"; sample_row 2014 5 30 "B" "Beta plc";
    sample_row 2014 6 30 "A" "Alpha plc"; sample_row 2014 6 30 "B" "Beta plc" ].

(** The six-month table with the two rows of January in the other order:
    still in ascending order of date. *)
Definition six_month_table_swapped : list ConstituentRow :=
  match six_month_table with
  | first :: second :: rest => second :: first :: rest
  | _ => six_month_table
  end.

(** The six-month table with two more rows of B at its end, one dated
    within the window with a missing cell and one dated after the window:
    still in ascending order of date. *)
Definition six_month_table_extended : list ConstituentRow :=
  six_month_table
  ++ [ mkConstituentRow "2014-06-30" (Some "B") [None];
       sample_row 2014 7 31 "B" "Beta plc" ].

(** *** Sample inputs *)

(** A search service that knows every company but Beta plc and Delta plc,
    and answers with a search object that is just the symbol. *)
Definition sample_search (text : string) : result string :=
  if String.eqb text "Beta plc" || String.eqb text "Delta plc"
  then Raise ExternalError
  else if String.eqb text "Alpha plc" then Ok "AAA"
  else if String.eqb text "Gamma plc" then Ok "GGG"
  else Ok "ZZZ".

(** A search service that is down. *)
Definition failing_search (text : string) : result string :=
  Raise ExternalError.

Definition four_companies : list MembershipRecord :=
  [ mkMembershipRecord "2014-01-31" "Alpha plc";
    mkMembershipRecord "2014-01-31" "Beta plc";
    mkMembershipRecord "2014-01-31" "Gamma plc";
    mkMembershipRecord "2014-01-31" "Delta plc" ].

(** One full batch of membership rows of a single company. *)
Definition hundred_rows : list MembershipRecord :=
  repeat (mkMembershipRecord "2014-01-31" "Alpha plc") 100.

(** What the spec calls the single unbounded join of the two tables. *)
Definition unbounded_join (constituents : list MembershipRecord)
  (symbols : list SymbolMapping) : list MatchedConstituent :=
  merge constituents symbols.

(** A history service over January 2014, values in hundredths of a
    percent, rows in descending date order as the feed gives them: XXX
    trades on the 1st, 2nd and 3rd, YYY on the 2nd, 3rd and 4th, and
    nothing else is known. *)
Definition sample_quotes (text : string) : result string :=
  if String.eqb text "XXX" || String.eqb text "YYY" then Ok text
  else Raise ExternalError.

Definition sample_history (search_result from_date to_date : string)
  : result (list (date * Z)) :=
  if String.eqb search_result "XXX"
  then Ok [ (mkdate 2014 1 3, 30); (mkdate 2014 1 2, -20);
            (mkdate 2014 1 1, 10) ]
  else if String.eqb search_result "YYY"
  then Ok [ (mkdate 2014 1 4, 45); (mkdate 2014 1 3, -35);
            (mkdate 2014 1 2, 25) ]
  else Raise ExternalError.

(** The same service for a market where a stock's symbol is ["Date"]: XXX
    trades on the 1st, 2nd and 3rd, and the stock called Date on the 2nd,
    3rd and 4th. *)
Definition date_quotes (text : string) : result string :=
  if String.eqb text "XXX" || String.eqb text "Date" then Ok text
  else Raise ExternalError.

Definition date_history (search_result from_date to_date : string)
  : result (list (date * Z)) :=
  if String.eqb search_result "XXX"
  then Ok [ (mkdate 2014 1 3, 30); (mkdate 2014 1 2, -20);
            (mkdate 2014 1 1, 10) ]
  else if String.eqb search_result "Date"
  then Ok [ (mkdate 2014 1 4, 45); (mkdate 2014 1 3, -35);
            (mkdate 2014 1 2, 25) ]
  else Raise ExternalError.

Definition matched_XD : list MatchedConstituent :=
  [ mkMatchedConstituent "2014-01-31" "Xi plc" "XXX";
    mkMatchedConstituent "2014-01-31" "Delta plc" "Date" ].

(** A search service whose answers carry an empty symbol. *)
Definition blank_search (text : string) : result string := Ok "".

Definition matched_XY : list MatchedConstituent :=
  [ mkMatchedConstituent "2014-01-31" "Xi plc" "XXX";
    mkMatchedConstituent "2014-01-31" "Upsilon plc" "YYY";
    mkMatchedConstituent "2014-02-28" "Xi plc" "XXX" ].

Definition matched_XZ : list MatchedConstituent :=
  [ mkMatchedConstituent "2014-01-31" "Xi plc" "XXX";
    mkMatchedConstituent "2014-01-31" "Zeta plc" "ZZZ" ].

Definition matched_ZX : list MatchedConstituent :=
  [ mkMatchedConstituent "2014-01-31" "Zeta plc" "ZZZ";
    mkMatchedConstituent "2014-01-31" "Xi plc" "XXX" ].

(** [b] lies in the calendar month that follows the month of [a]. *)
Definition in_next_month (a b : date) : Prop :=
  (month a < 12 /\ year b = year a /\ month b = month a + 1)
  \/ (month a = 12 /\ year b = year a + 1 /\ month b = 1).

(** The sum of the counters of a table. *)
Fixpoint total_count (acc : list (string * nat)) : nat :=
  match acc with
  | [] => O
  | (_, n) :: acc' => (n + total_count acc')%nat
  end.

(* ====================================================================== *)
(** * Properties *)

(** ** Dates *)

Lemma date_eqb_eq (a b : date) : date_eqb a b = true <-> a = b.
Proof.
  destruct a as [ya ma da], b as [yb mb db]; unfold date_eqb; simpl.
  rewrite !andb_true_iff, !Z.eqb_eq. split.
  - intros [[-> ->] ->]. reflexivity.
  - intros H. inversion H. auto.
Qed.

Lemma date_eqb_refl (a : date) : date_eqb a a = true.
Proof. apply date_eqb_eq. reflexivity. Qed.

Lemma date_eqb_neq (a b : date) : date_eqb a b = false <-> a <> b.
Proof.
  rewrite <- date_eqb_eq. destruct (date_eqb a b); split; congruence.
Qed.

Lemma date_eq_dec (a b : date) : {a = b} + {a <> b}.
Proof.
  destruct (date_eqb a b) eqn:E.
  - left. now apply date_eqb_eq.
  - right. now apply date_eqb_neq.
Defined.

(** A string [strptime] accepts denotes a date of the calendar. *)
Lemma strptime_valid (s : string) (d : date) :
  strptime s = Ok d ->
  1 <= year d <= 9999 /\ 1 <= month d <= 12
  /\ 1 <= day d <= days_in_month (year d) (month d).
Proof.
  unfold strptime.
  destruct (regex_match (list_ascii_of_string s)) as [[[[y m] d'] rest]|];
    [destruct rest|]; try discriminate.
  unfold make_date.
  destruct ((1 <=? y) && (y <=? 9999) && (1 <=? m) && (m <=? 12)
            && (1 <=? d') && (d' <=? days_in_month y m)) eqn:E;
    try discriminate.
  intros H. inversion H; subst; simpl.
  rewrite !andb_true_iff, !Z.leb_le in E. lia.
Qed.

Lemma months_between_date_ok (s e : string) (ds de : date) :
  strptime s = Ok ds -> strptime e = Ok de ->
  months_between_date s e
  = Ok ((year de - year ds) * 12 + (month de - month ds) + 1).
Proof.
  intros Hs He. unfold months_between_date. rewrite He, Hs. reflexivity.
Qed.

(** Over a window whose start is not after its end, the month count is at
    least one. *)
Lemma window_months_positive (s e : string) (ds de : date) :
  strptime s = Ok ds -> strptime e = Ok de -> date_le ds de ->
  1 <= (year de - year ds) * 12 + (month de - month ds) + 1.
Proof.
  intros Hs He Hle.
  apply strptime_valid in Hs. apply strptime_valid in He.
  unfold date_le, date_leb in Hle.
  repeat first [rewrite orb_true_iff in Hle | rewrite andb_true_iff in Hle].
  rewrite ?Z.ltb_lt, ?Z.eqb_eq, ?Z.leb_le in Hle.
  lia.
Qed.

(** C4.  For two valid dates with start <= end, [months_between_date]
    returns [(end.year - start.year) * 12 + (end.month - start.month) + 1];
    for two dates of the same year this is [end.month - start.month + 1];
    and from 2014-01-31 to 2014-12-31 it is 12. *)
Theorem months_between_date_formula :
  (forall (s e : string) (ds de : date),
      strptime s = Ok ds -> strptime e = Ok de -> date_le ds de ->
      months_between_date s e
      = Ok ((year de - year ds) * 12 + (month de - month ds) + 1))
  /\ (forall (s e : string) (ds de : date),
      strptime s = Ok ds -> strptime e = Ok de -> date_le ds de ->
      year ds = year de ->
      months_between_date s e = Ok (month de - month ds + 1))
  /\ months_between_date "2014-01-31" "2014-12-31" = Ok 12.
Proof.
  split; [|split].
  - intros s e ds de Hs He _. now apply months_between_date_ok.
  - intros s e ds de Hs He _ Hy.
    rewrite (months_between_date_ok _ _ Hs He). f_equal. lia.
  - reflexivity.
Qed.

Lemma months_between_date_formula_witness :
  months_between_date "2014-03-15" "2015-02-28" = Ok 12
  /\ months_between_date "2014-03-15" "2014-08-31" = Ok 6.
Proof.
  split.
  - exact (proj1 months_between_date_formula
                 "2014-03-15" "2015-02-28"
                 (mkdate 2014 3 15) (mkdate 2015 2 28)
                 eq_refl eq_refl eq_refl).
  - exact (proj1 (proj2 months_between_date_formula)
                 "2014-03-15" "2014-08-31"
                 (mkdate 2014 3 15) (mkdate 2014 8 31)
                 eq_refl eq_refl eq_refl eq_refl).
Defined.

(** ** Counting values *)

Lemma counter_bump (k k' : string) (acc : list (string * nat)) :
  counter (bump k acc) k'
  = if String.eqb k' k then S (counter acc k') else counter acc k'.
Proof.
  induction acc as [|[k0 n] acc IH]; simpl.
  - destruct (String.eqb k' k); reflexivity.
  - destruct (String.eqb k k0) eqn:E; simpl.
    + apply String.eqb_eq in E; subst k0.
      destruct (String.eqb k' k); reflexivity.
    + destruct (String.eqb k' k0) eqn:E'.
      * apply String.eqb_eq in E'; subst k0.
        rewrite String.eqb_sym, E. reflexivity.
      * exact IH.
Qed.

Lemma bump_keys (k x : string) (acc : list (string * nat)) :
  In x (map fst (bump k acc)) <-> x = k \/ In x (map fst acc).
Proof.
  induction acc as [|[k0 n] acc IH]; simpl.
  - intuition.
  - destruct (String.eqb k k0) eqn:E; simpl.
    + apply String.eqb_eq in E; subst k0. intuition.
    + rewrite IH. intuition.
Qed.

Lemma bump_wf (k : string) (acc : list (string * nat)) :
  counts_wf acc -> counts_wf (bump k acc).
Proof.
  unfold counts_wf. induction acc as [|[k0 n] acc IH]; simpl; intros [Hnd Hpos].
  - split; repeat constructor. intros [].
  - inversion Hnd as [|? ? Hnotin Hnd']; subst.
    inversion Hpos as [|? ? Hn Hpos']; subst.
    destruct (String.eqb k k0) eqn:E; simpl.
    + split; constructor; simpl in *; auto; lia.
    + destruct (IH (conj Hnd' Hpos')) as [IH1 IH2].
      split; constructor; auto.
      rewrite bump_keys. intros [->|Hin]; [|contradiction].
      rewrite String.eqb_refl in E. discriminate.
Qed.

Lemma counter_absent (acc : list (string * nat)) (k : string) :
  ~ In k (map fst acc) -> counter acc k = O.
Proof.
  induction acc as [|[k0 n] acc IH]; simpl; intros H; [reflexivity|].
  destruct (String.eqb k k0) eqn:E.
  - apply String.eqb_eq in E. subst. exfalso. auto.
  - apply IH. auto.
Qed.

Lemma counts_wf_In (acc : list (string * nat)) (k : string) (n : nat) :
  counts_wf acc ->
  (In (k, n) acc <-> counter acc k = n /\ (0 < n)%nat).
Proof.
  unfold counts_wf. induction acc as [|[k0 n0] acc IH]; simpl; intros [Hnd Hpos].
  - split; [intros [] | intros [<- H]; lia].
  - inversion Hnd as [|? ? Hnotin Hnd']; subst.
    inversion Hpos as [|? ? Hn Hpos']; subst. simpl in Hn.
    destruct (String.eqb k k0) eqn:E.
    + apply String.eqb_eq in E; subst k0. split.
      * intros [H|H]; [inversion H; subst; auto|].
        exfalso. apply Hnotin. change k with (fst (k, n)). now apply in_map.
      * intros [-> _]. now left.
    + rewrite <- (IH (conj Hnd' Hpos')). split.
      * intros [H|H]; [|exact H]. inversion H; subst.
        rewrite String.eqb_refl in E. discriminate.
      * intros H. now right.
Qed.

Lemma fold_bump_wf (l : list string) (acc : list (string * nat)) :
  counts_wf acc -> counts_wf (fold_left (fun acc k => bump k acc) l acc).
Proof.
  revert acc. induction l as [|x l IH]; simpl; intros acc H; [exact H|].
  apply IH. now apply bump_wf.
Qed.

Lemma fold_bump_counter (l : list string) (acc : list (string * nat))
  (k : string) :
  counter (fold_left (fun acc k => bump k acc) l acc) k
  = (counter acc k + count_occ string_dec l k)%nat.
Proof.
  revert acc. induction l as [|x l IH]; simpl; intros acc; [lia|].
  rewrite IH, counter_bump.
  destruct (string_dec x k) as [->|Hne].
  - rewrite String.eqb_refl. lia.
  - destruct (String.eqb k x) eqn:E; [|lia].
    apply String.eqb_eq in E. congruence.
Qed.

(** [value_counts] holds, for each value that occurs, its number of
    occurrences, and nothing else. *)
Lemma value_counts_In (l : list string) (k : string) (n : nat) :
  In (k, n) (value_counts l)
  <-> count_occ string_dec l k = n /\ (0 < n)%nat.
Proof.
  unfold value_counts.
  rewrite counts_wf_In.
  - rewrite fold_bump_counter. simpl. reflexivity.
  - apply fold_bump_wf. split; constructor.
Qed.

Lemma symbol_column_count (rows : list ConstituentRow) (id : string) :
  count_occ string_dec (symbol_column rows) id = occurrences id rows.
Proof.
  unfold occurrences. induction rows as [|r rows IH]; simpl; [reflexivity|].
  destruct (Symbol r) as [s|]; simpl; [|exact IH].
  destruct (string_dec s id) as [->|Hne].
  - rewrite String.eqb_refl. simpl. now rewrite IH.
  - destruct (String.eqb s id) eqn:E.
    + apply String.eqb_eq in E. congruence.
    + exact IH.
Qed.

Lemma occurrences_positive (id : string) (rows : list ConstituentRow) :
  (0 < occurrences id rows)%nat ->
  exists r, In r rows /\ Symbol r = Some id.
Proof.
  unfold occurrences. induction rows as [|r rows IH]; simpl; [lia|].
  destruct (Symbol r) as [s|] eqn:Hs.
  - destruct (String.eqb s id) eqn:E.
    + intros _. apply String.eqb_eq in E; subst. exists r. auto.
    + intros H. destruct (IH H) as [r' [? ?]]. exists r'. auto.
  - intros H. destruct (IH H) as [r' [? ?]]. exists r'. auto.
Qed.

Lemma occurrences_Permutation (id : string) (t t' : list ConstituentRow) :
  Permutation t t' -> occurrences id t = occurrences id t'.
Proof.
  intros H. unfold occurrences. apply Permutation_length.
  induction H; simpl.
  - constructor.
  - destruct (match Symbol x with Some s => String.eqb s id | None => false end);
      [constructor|]; assumption.
  - destruct (match Symbol x with Some s => String.eqb s id | None => false end),
      (match Symbol y with Some s => String.eqb s id | None => false end);
      try apply perm_swap; try apply Permutation_refl; constructor;
      apply Permutation_refl.
  - eapply Permutation_trans; eassumption.
Qed.

Lemma filter_Permutation {A : Type} (p : A -> bool) (l l' : list A) :
  Permutation l l' -> Permutation (filter p l) (filter p l').
Proof.
  intros H. induction H; simpl.
  - constructor.
  - destruct (p x); [constructor|]; assumption.
  - destruct (p x), (p y); try apply perm_swap; apply Permutation_refl.
  - eapply Permutation_trans; eassumption.
Qed.

(** ** Dates written yyyy-mm-dd *)

Ltac enum_Z x lo n :=
  lazymatch n with
  | O => exfalso; lia
  | S ?n' =>
      let E := fresh "E" in
      destruct (Z.eq_dec x lo) as [E|E];
      [ subst x
      | let lo' := eval compute in (lo + 1) in enum_Z x lo' n' ]
  end.

Lemma digit_digit_char (k : Z) :
  0 <= k <= 9 -> digit (digit_char k) = Some k.
Proof.
  intros Hk. enum_Z k 0 10%nat; reflexivity.
Qed.

Lemma directive_Y_four_digits (y : Z) (rest : list ascii) :
  0 <= y <= 9999 -> directive_Y (four_digits y ++ rest) = Some (y, rest).
Proof.
  intros Hy. unfold four_digits, directive_Y. simpl.
  rewrite !digit_digit_char
    by (Z.to_euclidean_division_equations; lia).
  do 2 f_equal. Z.to_euclidean_division_equations. lia.
Qed.

Lemma month_day_two_digits (m d : Z) :
  1 <= m <= 12 -> 1 <= d <= 31 ->
  first_month (directive_m (two_digits m ++ "-"%char :: two_digits d))
  = Some (m, d, []).
Proof.
  intros Hm Hd.
  enum_Z m 1 12%nat; enum_Z d 1 31%nat; reflexivity.
Qed.

Lemma days_in_month_le_31 (y m : Z) : days_in_month y m <= 31.
Proof.
  unfold days_in_month.
  destruct (m =? 2); [destruct (is_leap y); lia|].
  destruct ((m =? 4) || (m =? 6) || (m =? 9) || (m =? 11)); lia.
Qed.

(** Round trip: every date of the calendar, written yyyy-mm-dd with zero
    padding, is read back by [strptime] as that date. *)
Lemma isoformat_parses (d : date) :
  valid_date d -> strptime (isoformat d) = Ok d.
Proof.
  intros [Hy [Hm Hd]]. destruct d as [y m dd]. simpl in *.
  unfold strptime, isoformat. simpl year; simpl month; simpl day.
  rewrite list_ascii_of_string_of_list_ascii.
  unfold regex_match.
  rewrite directive_Y_four_digits by lia.
  cbn [literal_dash].
  pose proof (days_in_month_le_31 y m).
  rewrite month_day_two_digits by lia.
  unfold make_date.
  replace ((1 <=? y) && (y <=? 9999) && (1 <=? m) && (m <=? 12)
           && (1 <=? dd) && (dd <=? days_in_month y m)) with true;
    [reflexivity|].
  symmetry. rewrite !andb_true_iff, !Z.leb_le. lia.
Qed.

(** ** The order of labels *)

Lemma ascii_compare_refl (c : ascii) : Ascii.compare c c = Eq.
Proof. unfold Ascii.compare. apply N.compare_refl. Qed.

Lemma string_compare_refl (x : string) : String.compare x x = Eq.
Proof.
  induction x as [|c x IH]; simpl; [reflexivity|].
  now rewrite ascii_compare_refl.
Qed.

Lemma string_leb_refl (x : string) : String.leb x x = true.
Proof. unfold String.leb. now rewrite string_compare_refl. Qed.

Lemma string_compare_lt_trans (x y z : string) :
  String.compare x y = Lt -> String.compare y z = Lt ->
  String.compare x z = Lt.
Proof.
  revert y z. induction x as [|a x IH]; intros [|b y] [|c z]; simpl;
    try discriminate; try reflexivity.
  unfold Ascii.compare.
  destruct (N.compare_spec (N_of_ascii a) (N_of_ascii b)) as [Hab|Hab|Hab];
    try discriminate;
    destruct (N.compare_spec (N_of_ascii b) (N_of_ascii c)) as [Hbc|Hbc|Hbc];
    try discriminate; intros H1 H2.
  - rewrite Hab, Hbc, N.compare_refl. now apply (IH y z).
  - rewrite Hab. now apply N.compare_lt_iff in Hbc as ->.
  - rewrite <- Hbc. now apply N.compare_lt_iff in Hab as ->.
  - assert (Hac : (N_of_ascii a < N_of_ascii c)%N) by lia.
    now apply N.compare_lt_iff in Hac as ->.
Qed.

Lemma string_ltb_leb (x y : string) :
  String.ltb x y = negb (String.leb y x).
Proof.
  unfold String.ltb, String.leb. rewrite (String.compare_antisym x y).
  destruct (String.compare y x); reflexivity.
Qed.

Lemma string_leb_trans (x y z : string) :
  String.leb x y = true -> String.leb y z = true -> String.leb x z = true.
Proof.
  unfold String.leb.
  destruct (String.compare x y) eqn:Exy; try discriminate;
    destruct (String.compare y z) eqn:Eyz; try discriminate; intros _ _.
  - apply String.compare_eq_iff in Exy, Eyz. subst.
    now rewrite string_compare_refl.
  - apply String.compare_eq_iff in Exy. subst. now rewrite Eyz.
  - apply String.compare_eq_iff in Eyz. subst. now rewrite Exy.
  - now rewrite (string_compare_lt_trans _ _ _ Exy Eyz).
Qed.

Lemma string_leb_false (x y : string) :
  String.leb x y = false -> String.leb y x = true.
Proof.
  intros H. destruct (String.leb_total x y) as [H'|H']; congruence.
Qed.

(** *** Labels written yyyy-mm-dd sort as their dates *)

Lemma ascii_compare_digit_char (j k : Z) :
  0 <= j <= 9 -> 0 <= k <= 9 ->
  Ascii.compare (digit_char j) (digit_char k) = (j ?= k).
Proof.
  intros Hj Hk. enum_Z j 0 10%nat; enum_Z k 0 10%nat; reflexivity.
Qed.

Lemma four_digits_digits (y : Z) :
  0 <= y <= 9999 ->
  exists a b c d : Z,
    0 <= a <= 9 /\ 0 <= b <= 9 /\ 0 <= c <= 9 /\ 0 <= d <= 9
    /\ y = 1000 * a + 100 * b + 10 * c + d
    /\ four_digits y
       = [digit_char a; digit_char b; digit_char c; digit_char d].
Proof.
  intros Hy.
  exists (y / 1000), (y / 100 mod 10), (y / 10 mod 10), (y mod 10).
  repeat split; try reflexivity; Z.to_euclidean_division_equations; lia.
Qed.

Lemma two_digits_digits (n : Z) :
  0 <= n <= 99 ->
  exists a b : Z,
    0 <= a <= 9 /\ 0 <= b <= 9 /\ n = 10 * a + b
    /\ two_digits n = [digit_char a; digit_char b].
Proof.
  intros Hn. exists (n / 10), (n mod 10).
  repeat split; try reflexivity; Z.to_euclidean_division_equations; lia.
Qed.

Lemma date_leb_spec (a b : date) :
  date_leb a b = true
  <-> year a < year b
      \/ (year a = year b
          /\ (month a < month b \/ (month a = month b /\ day a <= day b))).
Proof.
  unfold date_leb.
  rewrite !orb_true_iff, !andb_true_iff, orb_true_iff, andb_true_iff.
  rewrite !Z.ltb_lt, !Z.eqb_eq, Z.leb_le. reflexivity.
Qed.

Lemma isoformat_leb (a b : date) :
  valid_date a -> valid_date b ->
  String.leb (isoformat a) (isoformat b) = date_leb a b.
Proof.
  intros [Hya [Hma Hda]] [Hyb [Hmb Hdb]].
  pose proof (days_in_month_le_31 (year a) (month a)).
  pose proof (days_in_month_le_31 (year b) (month b)).
  destruct (@four_digits_digits (year a)) as (a1 & a2 & a3 & a4 & ? & ? & ? & ? & Eya & Fa);
    [lia|].
  destruct (@four_digits_digits (year b)) as (b1 & b2 & b3 & b4 & ? & ? & ? & ? & Eyb & Fb);
    [lia|].
  destruct (@two_digits_digits (month a)) as (a5 & a6 & ? & ? & Ema & Ga); [lia|].
  destruct (@two_digits_digits (month b)) as (b5 & b6 & ? & ? & Emb & Gb); [lia|].
  destruct (@two_digits_digits (day a)) as (a7 & a8 & ? & ? & Eda & Ia); [lia|].
  destruct (@two_digits_digits (day b)) as (b7 & b8 & ? & ? & Edb & Ib); [lia|].
  unfold isoformat. rewrite Fa, Fb, Ga, Gb, Ia, Ib.
  unfold String.leb. cbn [app string_of_list_ascii String.compare].
  rewrite !ascii_compare_digit_char by assumption.
  rewrite !ascii_compare_refl.
  repeat match goal with
         | |- context [?x ?= ?y] => destruct (Z.compare_spec x y)
         end;
    first
      [ symmetry; apply date_leb_spec; lia
      | destruct (date_leb a b) eqn:E; [|reflexivity];
        apply date_leb_spec in E; exfalso; lia ].
Qed.

(** ** The label slice *)

Lemma monotonic_increasing_cons (x : string) (l : list string) :
  is_monotonic_increasing (x :: l) = true ->
  is_monotonic_increasing l = true
  /\ Forall (fun y => String.leb x y = true) l.
Proof.
  revert x. induction l as [|y l IH]; intros x H.
  - split; [reflexivity|constructor].
  - cbn [is_monotonic_increasing] in H. apply andb_true_iff in H.
    destruct H as [Hxy Hl]. split; [exact Hl|].
    destruct (IH y Hl) as [_ Hall]. constructor; [exact Hxy|].
    eapply Forall_impl; [|exact Hall]. intros z Hz.
    now apply (string_leb_trans x y z).
Qed.

Lemma first_index_In (a : string) (l : list string) (i : nat) :
  first_index a l = Some i -> In a l.
Proof.
  revert i. induction l as [|x l IH]; simpl; intros i; [discriminate|].
  destruct (String.eqb a x) eqn:E.
  - apply String.eqb_eq in E. auto.
  - destruct (first_index a l); [|discriminate]. intros _. right. eauto.
Qed.

Lemma count_occ_above (a y : string) (l : list string) :
  String.leb a y = true -> a <> y ->
  Forall (fun z => String.leb y z = true) l ->
  count_occ string_dec l a = O.
Proof.
  intros Hay Hne Hall. apply count_occ_not_In. intros Hin.
  rewrite Forall_forall in Hall. apply Hne.
  apply String.leb_antisym; [exact Hay | now apply Hall].
Qed.

(** In labels in ascending order that are all at or above [a], the labels
    equal to [a] are the leading ones. *)
Lemma leading_run (a : string) (l : list string) :
  is_monotonic_increasing l = true ->
  Forall (fun y => String.leb a y = true) l ->
  forallb (String.eqb a) (firstn (count_occ string_dec l a) l) = true
  /\ count_occ string_dec l a = searchsorted l a side_right.
Proof.
  induction l as [|y l IH]; intros Hmono Hall; [split; reflexivity|].
  apply monotonic_increasing_cons in Hmono. destruct Hmono as [Hmono Hy].
  inversion Hall as [|? ? Hay Hall']; subst.
  cbn [count_occ searchsorted].
  destruct (string_dec y a) as [->|Hne].
  - destruct (IH Hmono Hall') as [IH1 IH2].
    rewrite string_leb_refl. cbn [firstn forallb].
    rewrite String.eqb_refl, IH1, IH2. split; reflexivity.
  - assert (Hnone : count_occ string_dec l a = O).
    { apply (@count_occ_above a y l); auto. }
    rewrite Hnone. cbn [firstn forallb].
    destruct (String.leb y a) eqn:E; [|split; reflexivity].
    exfalso. apply Hne. now apply String.leb_antisym.
Qed.

(** In labels in ascending order, a label the index holds starts at its
    left insertion point, its occurrences are consecutive, and they end at
    its right insertion point. *)
Lemma sorted_run (a : string) (l : list string) (i : nat) :
  is_monotonic_increasing l = true ->
  first_index a l = Some i ->
  i = searchsorted l a side_left
  /\ forallb (String.eqb a)
             (firstn (count_occ string_dec l a) (skipn i l)) = true
  /\ (i + count_occ string_dec l a)%nat = searchsorted l a side_right.
Proof.
  revert i. induction l as [|x l IH]; intros i Hmono Hi; [discriminate|].
  apply monotonic_increasing_cons in Hmono. destruct Hmono as [Hmono Hx].
  cbn [first_index] in Hi. cbn [count_occ searchsorted].
  destruct (String.eqb a x) eqn:E.
  - apply String.eqb_eq in E. subst x. inversion Hi; subst i.
    destruct (string_dec a a) as [_|Hne]; [|congruence].
    destruct (@leading_run a l Hmono Hx) as [Hrun Hcount].
    rewrite string_ltb_leb, string_leb_refl. cbn [negb skipn firstn forallb].
    rewrite String.eqb_refl, Hrun, Hcount. repeat split; reflexivity.
  - apply String.eqb_neq in E.
    destruct (first_index a l) as [i'|] eqn:Ei; [|discriminate].
    inversion Hi; subst i.
    destruct (IH i' Hmono eq_refl) as [IH1 [IH2 IH3]].
    assert (Hxa : String.leb x a = true).
    { rewrite Forall_forall in Hx. apply Hx. now apply first_index_In with i'. }
    assert (Hax : String.leb a x = false).
    { destruct (String.leb a x) eqn:F; [|reflexivity].
      exfalso. apply E. now apply String.leb_antisym. }
    destruct (string_dec x a) as [Heq|_]; [congruence|].
    rewrite string_ltb_leb, Hax, Hxa. cbn [negb skipn].
    rewrite <- IH1, <- IH3. split; [reflexivity|]. split; [exact IH2|reflexivity].
Qed.

(** On an index in ascending order both bounds are the insertion points of
    their labels, and no bound raises. *)
Lemma get_slice_bound_sorted (l : list string) (a : string) (sd : side) :
  is_monotonic_increasing l = true ->
  get_slice_bound l a sd = Ok (searchsorted l a sd).
Proof.
  intros Hmono. unfold get_slice_bound.
  destruct (first_index a l) as [i|] eqn:Ei.
  - destruct (@sorted_run a l i Hmono Ei) as [H1 [H2 H3]].
    rewrite H2. destruct sd; congruence.
  - unfold searchsorted_monotonic. now rewrite Hmono.
Qed.

Lemma above_all_filter (a b x : string) (rows : list ConstituentRow) :
  String.leb x b = false ->
  Forall (fun y => String.leb x y = true) (map Date rows) ->
  filter (fun r => String.leb a (Date r) && String.leb (Date r) b) rows = [].
Proof.
  intros Hxb Hall. induction rows as [|r rows IH]; [reflexivity|].
  inversion Hall as [|? ? Hr Hall']; subst. cbn [filter].
  destruct (String.leb (Date r) b) eqn:E.
  - rewrite (string_leb_trans _ _ _ Hr E) in Hxb. discriminate.
  - rewrite andb_false_r. now apply IH.
Qed.

Lemma firstn_right_bound (a b : string) (rows : list ConstituentRow) :
  is_monotonic_increasing (map Date rows) = true ->
  Forall (fun y => String.leb a y = true) (map Date rows) ->
  firstn (searchsorted (map Date rows) b side_right) rows
  = filter (fun r => String.leb a (Date r) && String.leb (Date r) b) rows.
Proof.
  induction rows as [|r rows IH]; intros Hmono Hall; [reflexivity|].
  cbn [map] in *. apply monotonic_increasing_cons in Hmono.
  destruct Hmono as [Hmono Hr].
  inversion Hall as [|? ? Har Hall']; subst.
  cbn [searchsorted filter]. rewrite Har. cbn [andb].
  destruct (String.leb (Date r) b) eqn:E.
  - cbn [firstn]. f_equal. now apply IH.
  - cbn [firstn]. symmetry. now apply (above_all_filter a b (Date r)).
Qed.

(** On a table in ascending order of its labels the positional cut between
    the two bounds is the closed window of labels. *)
Lemma iloc_sorted (a b : string) (rows : list ConstituentRow) :
  is_monotonic_increasing (map Date rows) = true ->
  iloc (searchsorted (map Date rows) a side_left)
       (searchsorted (map Date rows) b side_right) rows
  = filter (fun r => String.leb a (Date r) && String.leb (Date r) b) rows.
Proof.
  induction rows as [|r rows IH]; intros Hmono; [reflexivity|].
  pose proof Hmono as Hmono0.
  cbn [map] in Hmono. apply monotonic_increasing_cons in Hmono.
  destruct Hmono as [Hmono Hr].
  cbn [map]. cbn [searchsorted].
  rewrite string_ltb_leb.
  destruct (String.leb a (Date r)) eqn:Ea; cbn [negb].
  - unfold iloc. rewrite Nat.sub_0_r. cbn [skipn].
    change (if String.leb (Date r) b
            then S (searchsorted (map Date rows) b side_right) else O)
      with (searchsorted (map Date (r :: rows)) b side_right).
    apply firstn_right_bound; [exact Hmono0|].
    cbn [map]. constructor; [exact Ea|].
    eapply Forall_impl; [|exact Hr]. intros z Hz.
    now apply (string_leb_trans a (Date r) z).
  - cbn [filter]. rewrite Ea. cbn [andb].
    destruct (String.leb (Date r) b) eqn:Eb.
    + unfold iloc in *. cbn [skipn Nat.sub]. now apply IH.
    + unfold iloc. cbn [Nat.sub firstn]. symmetry.
      now apply (above_all_filter a b (Date r)).
Qed.

Lemma loc_sorted (t : list ConstituentRow) (a b : string) :
  is_monotonic_increasing (map Date t) = true ->
  loc t a b
  = Ok (filter (fun r => String.leb a (Date r) && String.leb (Date r) b) t).
Proof.
  intros Hmono. unfold loc, slice_locs.
  rewrite !get_slice_bound_sorted by exact Hmono. simpl.
  now rewrite iloc_sorted.
Qed.

(** Whatever the index, a slice that does not raise is made of rows of the
    table. *)
Lemma loc_rows (t sliced : list ConstituentRow) (a b : string) :
  loc t a b = Ok sliced -> forall r, In r sliced -> In r t.
Proof.
  unfold loc. destruct (slice_locs (map Date t) a b) as [[i j]|x];
    simpl; [|discriminate].
  intros H. inversion H; subst sliced. intros r Hr. unfold iloc in Hr.
  assert (Hin : In r (skipn i t)).
  { rewrite <- (firstn_skipn (j - i) (skipn i t)). apply in_or_app. now left. }
  rewrite <- (firstn_skipn i t). apply in_or_app. now right.
Qed.

(** ** Constituent filter *)

(** What a run of the filter that returns is made of. *)
Lemma common_constituents_inv (t : list ConstituentRow) (s e : string)
  (out : list string) :
  common_constituents t s e = Ok out ->
  exists (sliced : list ConstituentRow) (f : Z),
    loc t s e = Ok sliced
    /\ months_between_date s e = Ok f
    /\ out = map fst (filter (fun p => Z.of_nat (snd p) =? f)
                             (value_counts (symbol_column (dropna sliced)))).
Proof.
  unfold common_constituents.
  destruct (loc t s e) as [sliced|x]; simpl; [|discriminate].
  destruct (months_between_date s e) as [f|x]; simpl; [|discriminate].
  intros H. inversion H. exists sliced, f. auto.
Qed.

(** On a table in ascending order of its labels the slice is the closed
    window of labels, and the filter fails only on a malformed window. *)
Lemma common_constituents_sorted (t : list ConstituentRow) (s e : string) :
  is_monotonic_increasing (map Date t) = true ->
  common_constituents t s e
  = (f <- months_between_date s e ;;
     Ok (map fst
           (filter (fun p => Z.of_nat (snd p) =? f)
              (value_counts
                 (symbol_column
                    (dropna
                       (filter (fun r => String.leb s (Date r)
                                         && String.leb (Date r) e) t))))))).
Proof.
  intros Hmono. unfold common_constituents.
  rewrite (loc_sorted t s e Hmono). reflexivity.
Qed.

(** The identifiers kept at threshold [f] are those that occur, and occur
    exactly [f] times. *)
Lemma kept_iff (rows : list ConstituentRow) (f : Z) (id : string) :
  In id (map fst (filter (fun p => Z.of_nat (snd p) =? f)
                         (value_counts (symbol_column rows))))
  <-> Z.of_nat (occurrences id rows) = f /\ (0 < occurrences id rows)%nat.
Proof.
  rewrite in_map_iff. split.
  - intros [[k n] [Hk Hin]]. simpl in Hk. subst k.
    apply filter_In in Hin. destruct Hin as [Hin Hf]. simpl in Hf.
    apply Z.eqb_eq in Hf.
    apply value_counts_In in Hin. rewrite symbol_column_count in Hin.
    destruct Hin as [<- Hpos]. auto.
  - intros [Hf Hpos]. exists (id, occurrences id rows). split; [reflexivity|].
    apply filter_In. split.
    + apply value_counts_In. rewrite symbol_column_count. auto.
    + simpl. now apply Z.eqb_eq.
Qed.

(** A label written yyyy-mm-dd denotes its date. *)
Lemma iso_label_date (r : ConstituentRow) :
  iso_label r = true ->
  exists d : date,
    strptime (Date r) = Ok d /\ Date r = isoformat d /\ valid_date d.
Proof.
  unfold iso_label. destruct (strptime (Date r)) as [d|x] eqn:E;
    [|discriminate].
  intros H. apply String.eqb_eq in H. exists d.
  split; [reflexivity|]. split; [exact H|]. now apply strptime_valid in E.
Qed.

(** On yyyy-mm-dd labels and bounds, the rows the window of labels and
    [dropna] keep for an identifier are its occurrences within the window
    of dates, rows with a missing field left out. *)
Lemma window_count (id : string) (lo hi : date) (t : list ConstituentRow) :
  forallb iso_label t = true -> valid_date lo -> valid_date hi ->
  occurrences id
    (dropna (filter (fun r => String.leb (isoformat lo) (Date r)
                              && String.leb (Date r) (isoformat hi)) t))
  = window_occurrences id lo hi t.
Proof.
  intros Hiso Hlo Hhi. unfold occurrences, dropna, window_occurrences.
  induction t as [|r t IH]; [reflexivity|].
  cbn [forallb] in Hiso. apply andb_true_iff in Hiso.
  destruct Hiso as [Hr Hiso]. specialize (IH Hiso).
  destruct (iso_label_date r Hr) as [d [Hd [Hlabel Hvalid]]].
  cbn [filter]. unfold in_window at 1, complete at 1. rewrite Hd.
  rewrite Hlabel at 1 2. rewrite !isoformat_leb by assumption.
  destruct (date_leb lo d && date_leb d hi); cbn [andb filter];
    [|exact IH].
  destruct (is_some (Symbol r) && forallb is_some (other_cells r));
    cbn [andb filter]; [|exact IH].
  destruct (match Symbol r with
            | Some s => String.eqb s id
            | None => false
            end); cbn [List.length]; now rewrite IH.
Qed.

(** C5 (as amended).  On a table indexed by yyyy-mm-dd dates in ascending
    order, over a window of two yyyy-mm-dd dates with start <= end, the
    filter returns, and it keeps an identifier if and only if its number
    of occurrences within the window, rows with a missing field left out,
    is exactly the month count [f] of the window; with A in all six months
    of a six-month window and B in five of them, it returns A alone. *)
Theorem common_constituents_exact_count :
  (forall (t : list ConstituentRow) (lo hi : date),
      date_sorted t = true ->
      valid_date lo -> valid_date hi -> date_le lo hi ->
      exists (out : list string) (f : Z),
        common_constituents t (isoformat lo) (isoformat hi) = Ok out
        /\ months_between_date (isoformat lo) (isoformat hi) = Ok f
        /\ forall id : string,
            In id out <-> Z.of_nat (window_occurrences id lo hi t) = f)
  /\ common_constituents six_month_table "2014-01-01" "2014-06-30"
     = Ok ["A"].
Proof.
  split; [|reflexivity].
  intros t lo hi Hsorted Hlo Hhi Hle.
  unfold date_sorted in Hsorted. apply andb_true_iff in Hsorted.
  destruct Hsorted as [Hiso Hmono].
  pose proof (isoformat_parses Hlo) as Hs.
  pose proof (isoformat_parses Hhi) as He.
  pose proof (months_between_date_ok _ _ Hs He) as Hf.
  eexists. eexists. split; [|split; [exact Hf|]].
  - rewrite (common_constituents_sorted _ _ _ Hmono), Hf. reflexivity.
  - intros id. rewrite kept_iff, (window_count id t Hiso Hlo Hhi).
    pose proof (window_months_positive _ _ Hs He Hle) as Hpos.
    split; [tauto|]. intros H. split; [exact H|]. lia.
Qed.

Lemma six_month_window_valid :
  valid_date (mkdate 2014 2 1) /\ valid_date (mkdate 2014 6 30).
Proof.
  unfold valid_date. cbn [year month day].
  change (days_in_month 2014 2) with 28.
  change (days_in_month 2014 6) with 30. lia.
Qed.

Lemma common_constituents_exact_count_witness :
  exists (out : list string) (f : Z),
    common_constituents six_month_table
      (isoformat (mkdate 2014 2 1)) (isoformat (mkdate 2014 6 30)) = Ok out
    /\ months_between_date (isoformat (mkdate 2014 2 1))
                           (isoformat (mkdate 2014 6 30)) = Ok f
    /\ forall id : string,
        In id out
        <-> Z.of_nat (window_occurrences id (mkdate 2014 2 1)
                        (mkdate 2014 6 30) six_month_table)
            = f.
Proof.
  exact (proj1 common_constituents_exact_count six_month_table
               (mkdate 2014 2 1) (mkdate 2014 6 30)
               eq_refl (proj1 six_month_window_valid)
               (proj2 six_month_window_valid) eq_refl).
Defined.

(** C5 as stated fails twice.  On the six-month table with its rows in
    descending order of date the label slice between the two bounds is
    empty, and the filter returns nothing although A occurs six times
    within the six-month window.  And on the six-month table in ascending
    order, with the same window written without zero padding, the bounds
    are placed as strings after every label, and the filter returns
    nothing either. *)
Lemma common_constituents_exact_count_counterexample :
  ~ (exists (out : list string) (f : Z),
        common_constituents (rev six_month_table) "2014-01-01" "2014-06-30"
        = Ok out
        /\ months_between_date "2014-01-01" "2014-06-30" = Ok f
        /\ forall id : string,
            In id out
            <-> Z.of_nat (window_occurrences id (mkdate 2014 1 1)
                            (mkdate 2014 6 30) (rev six_month_table))
                = f)
  /\ ~ (exists (out : list string) (f : Z),
           common_constituents six_month_table "2014-1-1" "2014-6-30"
           = Ok out
           /\ months_between_date "2014-1-1" "2014-6-30" = Ok f
           /\ forall id : string,
               In id out
               <-> Z.of_nat (window_occurrences id (mkdate 2014 1 1)
                               (mkdate 2014 6 30) six_month_table)
                   = f).
Proof.
  split.
  - intros (out & f & Hcc & Hf & H).
    vm_compute in Hcc. inversion Hcc; subst out; clear Hcc.
    vm_compute in Hf. inversion Hf; subst f; clear Hf.
    apply (proj2 (H "A")). reflexivity.
  - intros (out & f & Hcc & Hf & H).
    vm_compute in Hcc. inversion Hcc; subst out; clear Hcc.
    vm_compute in Hf. inversion Hf; subst f; clear Hf.
    apply (proj2 (H "A")). reflexivity.
Qed.

(** Exact equality, not at-least: a company listed twice in one month of
    the window (seven rows over six months) is excluded. *)
Example common_constituents_not_at_least :
  common_constituents
    (six_month_table ++ [sample_row 2014 6 30 "A" "Alpha plc"])
    "2014-01-01" "2014-06-30"
  = Ok [].
Proof. reflexivity. Qed.

(** C6 (as amended).  On two tables that are both in ascending order of
    their date labels and hold the same rows (rows of one date listed in
    another order), the filter returns the same set of identifiers (and
    fails on the same malformed window). *)
Theorem common_constituents_row_order
  (t t' : list ConstituentRow) (s e : string) :
  is_monotonic_increasing (map Date t) = true ->
  is_monotonic_increasing (map Date t') = true ->
  Permutation t t' ->
  match common_constituents t s e, common_constituents t' s e with
  | Ok out, Ok out' => forall id : string, In id out <-> In id out'
  | Raise x, Raise x' => x = x'
  | _, _ => False
  end.
Proof.
  intros Hmono Hmono' Hperm.
  rewrite (common_constituents_sorted _ _ _ Hmono).
  rewrite (common_constituents_sorted _ _ _ Hmono').
  destruct (months_between_date s e) as [f|x]; simpl; [|reflexivity].
  intros id. rewrite !kept_iff.
  assert (Hocc :
            occurrences id
              (dropna (filter (fun r => String.leb s (Date r)
                                        && String.leb (Date r) e) t))
            = occurrences id
                (dropna (filter (fun r => String.leb s (Date r)
                                          && String.leb (Date r) e) t'))).
  { apply occurrences_Permutation.
    unfold dropna. now do 2 apply filter_Permutation. }
  rewrite Hocc. reflexivity.
Qed.

Lemma common_constituents_row_order_witness :
  match common_constituents six_month_table "2014-01-01" "2014-06-30",
        common_constituents six_month_table_swapped "2014-01-01" "2014-06-30"
  with
  | Ok out, Ok out' => forall id : string, In id out <-> In id out'
  | Raise x, Raise x' => x = x'
  | _, _ => False
  end.
Proof.
  apply (@common_constituents_row_order
           six_month_table six_month_table_swapped
           "2014-01-01" "2014-06-30").
  - reflexivity.
  - reflexivity.
  - apply perm_swap.
Defined.

(** C6 as stated fails: the six-month table and the same rows in
    descending order of date are permutations of each other, and the
    filter returns A on the first and nothing on the second. *)
Lemma common_constituents_row_order_counterexample :
  ~ forall (t t' : list ConstituentRow) (s e : string),
      Permutation t t' ->
      match common_constituents t s e, common_constituents t' s e with
      | Ok out, Ok out' => forall id : string, In id out <-> In id out'
      | Raise x, Raise x' => x = x'
      | _, _ => False
      end.
Proof.
  intros H.
  specialize (H six_month_table (rev six_month_table)
                "2014-01-01" "2014-06-30" (Permutation_rev six_month_table)).
  assert (H1 : common_constituents six_month_table "2014-01-01" "2014-06-30"
               = Ok ["A"]) by reflexivity.
  assert (H2 : common_constituents (rev six_month_table)
                 "2014-01-01" "2014-06-30" = Ok []) by reflexivity.
  rewrite H1, H2 in H. apply (proj1 (H "A")). now left.
Qed.

(** C9.  Every identifier the filter returns is the identifier of a row of
    the input table. *)
Theorem common_constituents_subset
  (t : list ConstituentRow) (s e : string) (out : list string) (id : string) :
  common_constituents t s e = Ok out ->
  In id out ->
  exists r : ConstituentRow, In r t /\ Symbol r = Some id.
Proof.
  intros Hcc Hin.
  destruct (common_constituents_inv _ _ _ Hcc) as (sliced & f & Hloc & _ & ->).
  apply kept_iff in Hin. destruct Hin as [_ Hpos].
  apply occurrences_positive in Hpos. destruct Hpos as [r [Hr Hsym]].
  exists r. split; [|exact Hsym].
  unfold dropna in Hr. apply filter_In in Hr. destruct Hr as [Hr _].
  now apply (loc_rows _ _ _ Hloc).
Qed.

Lemma common_constituents_subset_witness :
  exists r : ConstituentRow, In r six_month_table /\ Symbol r = Some "A".
Proof.
  apply (@common_constituents_subset six_month_table
           "2014-01-01" "2014-06-30" ["A"] "A").
  - reflexivity.
  - simpl. left. reflexivity.
Defined.

(** ** Dropping duplicates *)

Section DropDuplicates.

Variable A : Type.
Variable key : A -> string.

Lemma existsb_eqb_In (k : string) (seen : list string) :
  existsb (String.eqb k) seen = true <-> In k seen.
Proof.
  rewrite existsb_exists. split.
  - intros [x [Hin Heq]]. apply String.eqb_eq in Heq. now subst.
  - intros H. exists k. split; [exact H | apply String.eqb_refl].
Qed.

Lemma drop_duplicates_from_NoDup (seen : list string) (l : list A) :
  NoDup (map key l) ->
  (forall x, In x l -> ~ In (key x) seen) ->
  drop_duplicates_from key seen l = l.
Proof.
  revert seen. induction l as [|x l IH]; simpl; intros seen Hnd Hseen;
    [reflexivity|].
  inversion Hnd as [|? ? Hnotin Hnd']; subst.
  destruct (existsb (String.eqb (key x)) seen) eqn:E.
  - apply existsb_eqb_In in E. exfalso. apply (Hseen x); auto.
  - f_equal. apply IH; [exact Hnd'|].
    intros y Hy [Heq|Hin].
    + apply Hnotin. rewrite Heq. now apply in_map.
    + apply (Hseen y); auto.
Qed.

Lemma drop_duplicates_NoDup (l : list A) :
  NoDup (map key l) -> drop_duplicates key l = l.
Proof.
  intros H. apply drop_duplicates_from_NoDup; auto.
Qed.

Lemma drop_duplicates_from_keys (seen : list string) (l : list A) :
  NoDup (map key (drop_duplicates_from key seen l))
  /\ (forall k, In k (map key (drop_duplicates_from key seen l))
                <-> In k (map key l) /\ ~ In k seen)
  /\ (forall x, In x (drop_duplicates_from key seen l) -> In x l).
Proof.
  revert seen. induction l as [|x l IH]; simpl; intros seen.
  - split; [constructor|]. split; [tauto|tauto].
  - destruct (existsb (String.eqb (key x)) seen) eqn:E.
    + destruct (IH seen) as [IH1 [IH2 IH3]].
      apply existsb_eqb_In in E.
      split; [exact IH1|]. split.
      * intros k. rewrite IH2. split; [tauto|].
        intros [[<-|H] Hn]; tauto.
      * auto.
    + destruct (IH (key x :: seen)) as [IH1 [IH2 IH3]].
      assert (Hx : ~ In (key x) seen).
      { intros H. apply existsb_eqb_In in H. congruence. }
      split; [|split].
      * simpl. constructor; [|exact IH1].
        rewrite IH2. simpl. tauto.
      * intros k. simpl. rewrite IH2. simpl.
        destruct (string_dec (key x) k) as [<-|Hne]; tauto.
      * intros y [<-|Hy]; auto.
Qed.

End DropDuplicates.

(** ** Symbol resolver *)

Section ResolverProperties.

Variable SearchObj : Type.
Variable symbol : SearchObj -> string.
Variable search_quotes : string -> result SearchObj.

Lemma resolve_loop (companies : list string)
  (mapping : list SymbolMapping) (errors : list string) :
  fold_left (resolve_one symbol search_quotes) companies (mapping, errors)
  = (mapping ++ map (resolved_row symbol search_quotes) companies,
     errors ++ filter (lookup_fails search_quotes) companies).
Proof.
  revert mapping errors.
  induction companies as [|c cs IH]; simpl; intros mapping errors.
  - now rewrite !app_nil_r.
  - unfold resolved_row at 1, lookup_fails at 1.
    destruct (search_quotes c) as [r|x]; simpl; rewrite IH.
    + now rewrite <- app_assoc.
    + now rewrite <- !app_assoc.
Qed.

Lemma resolved_row_company (c : string) :
  sm_Company (resolved_row symbol search_quotes c) = c.
Proof. unfold resolved_row. destruct (search_quotes c); reflexivity. Qed.

(** C7 (as amended).  On a table of N distinct companies, with a service
    whose successful answers carry a non-empty symbol, the resolver returns a
    mapping table of N rows, one per company in input order; the row at a
    position has the empty symbol if and only if the lookup of the company
    at that position fails (otherwise it has the symbol found); and the
    error list is the list of the companies whose lookup fails, in input
    order. *)
Theorem scrape_constituents_symbols_rows
  (constituents : list MembershipRecord) :
  NoDup (map mr_Company constituents) ->
  (forall c r, search_quotes c = Ok r -> symbol r <> "") ->
  let companies := map mr_Company constituents in
  let out := scrape_constituents_symbols symbol search_quotes constituents in
  List.length (fst out) = List.length constituents
  /\ map sm_Company (fst out) = companies
  /\ (forall (i : nat) (c : string),
         nth_error companies i = Some c ->
         exists row : SymbolMapping,
           nth_error (fst out) i = Some row
           /\ sm_Company row = c
           /\ (sm_Symbol row = "" <-> lookup_fails search_quotes c = true)
           /\ (forall r, search_quotes c = Ok r -> sm_Symbol row = symbol r))
  /\ snd out = filter (lookup_fails search_quotes) companies.
Proof.
  intros Hnd Hsym companies out.
  assert (Hout : out = (map (resolved_row symbol search_quotes) companies,
                        filter (lookup_fails search_quotes) companies)).
  { unfold out, scrape_constituents_symbols.
    rewrite (drop_duplicates_NoDup _ _ Hnd), resolve_loop. reflexivity. }
  rewrite Hout. simpl. split; [|split; [|split]].
  - unfold companies. now rewrite !length_map.
  - rewrite map_map. rewrite <- (map_id companies) at 2.
    apply map_ext. apply resolved_row_company.
  - intros i c Hi.
    exists (resolved_row symbol search_quotes c). split.
    + now apply map_nth_error.
    + split; [apply resolved_row_company|].
      unfold resolved_row, lookup_fails.
      destruct (search_quotes c) as [r|x] eqn:E; simpl.
      * split.
        -- split; [|discriminate]. intros H. exfalso. now apply (Hsym c r).
        -- intros r' Hr'. now inversion Hr'.
      * split; [tauto|discriminate].
  - reflexivity.
Qed.

End ResolverProperties.

Lemma sample_search_symbols (c r : string) :
  sample_search c = Ok r -> r <> "".
Proof.
  unfold sample_search.
  destruct (String.eqb c "Beta plc" || String.eqb c "Delta plc");
    [discriminate|].
  destruct (String.eqb c "Alpha plc"); [intros H; inversion H; discriminate|].
  destruct (String.eqb c "Gamma plc"); intros H; inversion H; discriminate.
Qed.

Lemma four_companies_distinct : NoDup (map mr_Company four_companies).
Proof.
  simpl. repeat constructor; simpl; intuition discriminate.
Qed.

Lemma scrape_constituents_symbols_rows_witness :
  scrape_constituents_symbols (fun s : string => s) sample_search four_companies
  = ([ mkSymbolMapping "Alpha plc" "AAA"; mkSymbolMapping "Beta plc" "";
       mkSymbolMapping "Gamma plc" "GGG"; mkSymbolMapping "Delta plc" "" ],
     [ "Beta plc"; "Delta plc" ])
  /\ snd (scrape_constituents_symbols (fun s : string => s) sample_search
                                      four_companies)
     = filter (lookup_fails sample_search) (map mr_Company four_companies).
Proof.
  split; [reflexivity|].
  exact (proj2 (proj2 (proj2
    (@scrape_constituents_symbols_rows string (fun s => s) sample_search
       four_companies four_companies_distinct sample_search_symbols)))).
Defined.

(** C7 as stated fails: with a service that answers every search with a
    search object whose symbol is empty, no lookup fails, the error list
    is empty, and yet the row of Alpha plc (position 0) has the empty
    symbol. *)
Lemma scrape_constituents_symbols_rows_counterexample :
  let out :=
    scrape_constituents_symbols (fun s : string => s) blank_search
                                four_companies in
  NoDup (map mr_Company four_companies)
  /\ snd out = []
  /\ ~ (forall (i : nat) (c : string),
           nth_error (map mr_Company four_companies) i = Some c ->
           exists row : SymbolMapping,
             nth_error (fst out) i = Some row
             /\ sm_Company row = c
             /\ (sm_Symbol row = ""
                 <-> lookup_fails blank_search c = true)).
Proof.
  split; [exact four_companies_distinct|]. split; [reflexivity|].
  intros H.
  destruct (H O "Alpha plc" eq_refl) as [row [Hrow [_ [Hempty _]]]].
  vm_compute in Hrow. inversion Hrow; subst row; clear Hrow.
  specialize (Hempty eq_refl). vm_compute in Hempty. discriminate.
Qed.

(** ** Constituent-symbol matcher *)

Lemma merge_app (a b : list MembershipRecord) (symbols : list SymbolMapping) :
  merge (a ++ b) symbols = merge a symbols ++ merge b symbols.
Proof. unfold merge. apply flat_map_app. Qed.

Lemma firstn_add_skipn {A : Type} (a n : nat) (l : list A) :
  firstn (a + n) l = firstn a l ++ firstn n (skipn a l).
Proof.
  revert l. induction a as [|a IH]; intros l; simpl; [reflexivity|].
  destruct l as [|x l]; simpl.
  - now rewrite firstn_nil.
  - now rewrite IH.
Qed.

(** After [k] rounds the loop has joined the first [100 * k] rows. *)
Lemma batches_joined (constituents : list MembershipRecord)
  (symbols : list SymbolMapping) (k : nat) :
  fold_left
    (fun acc i =>
       acc ++ merge (iloc (i * 100) ((i + 1) * 100) constituents) symbols)
    (seq 0 k) []
  = merge (firstn (100 * k) constituents) symbols.
Proof.
  induction k as [|k IH].
  - reflexivity.
  - rewrite seq_S, fold_left_app, IH. cbn [fold_left Nat.add].
    rewrite <- merge_app. f_equal.
    unfold iloc.
    replace ((k + 1) * 100 - k * 100)%nat with 100%nat by lia.
    replace (100 * S k)%nat with (k * 100 + 100)%nat by lia.
    replace (100 * k)%nat with (k * 100)%nat by lia.
    symmetry. apply firstn_add_skipn.
Qed.

Lemma match_company_symbol_prefix (constituents : list MembershipRecord)
  (symbols : list SymbolMapping) :
  match_company_symbol constituents symbols
  = merge (firstn (100 * (List.length constituents / 100)) constituents)
          symbols.
Proof. unfold match_company_symbol. apply batches_joined. Qed.

Lemma merge_In (left : list MembershipRecord) (symbols : list SymbolMapping)
  (row : MatchedConstituent) :
  In row (merge left symbols)
  <-> exists m sm,
      In m left /\ In sm symbols /\ mr_Company m = sm_Company sm
      /\ row = mkMatchedConstituent (mr_Date m) (mr_Company m) (sm_Symbol sm).
Proof.
  unfold merge. rewrite in_flat_map. split.
  - intros [m [Hm Hin]]. apply in_map_iff in Hin.
    destruct Hin as [sm [Hrow Hsm]]. apply filter_In in Hsm.
    destruct Hsm as [Hsm Heq]. apply String.eqb_eq in Heq.
    exists m, sm. auto.
  - intros [m [sm [Hm [Hsm [Heq ->]]]]]. exists m. split; [exact Hm|].
    apply in_map_iff. exists sm. split; [reflexivity|].
    apply filter_In. split; [exact Hsm|]. now apply String.eqb_eq.
Qed.

Lemma match_company_symbol_short (constituents : list MembershipRecord)
  (symbols : list SymbolMapping) :
  (List.length constituents < 100)%nat ->
  match_company_symbol constituents symbols = [].
Proof.
  intros Hlt. rewrite match_company_symbol_prefix.
  rewrite (Nat.div_small _ _ Hlt). reflexivity.
Qed.

Lemma match_company_symbol_tail (batches last : list MembershipRecord)
  (symbols : list SymbolMapping) :
  (List.length batches mod 100 = 0)%nat ->
  (List.length last < 100)%nat ->
  match_company_symbol (batches ++ last) symbols = merge batches symbols.
Proof.
  intros Hmod Hlt.
  rewrite match_company_symbol_prefix, length_app.
  assert (Hlen : (100 * ((List.length batches + List.length last) / 100)
                  = List.length batches)%nat).
  { pose proof (Nat.div_mod_eq (List.length batches) 100) as Hb.
    rewrite Hmod, Nat.add_0_r in Hb.
    rewrite <- (Nat.div_unique (List.length batches + List.length last) 100
                  (List.length batches / 100) (List.length last)); lia. }
  rewrite Hlen, firstn_app, firstn_all, Nat.sub_diag. simpl.
  now rewrite app_nil_r.
Qed.

(** C10.  The matcher joins the first [100 * floor(n / 100)] rows of a
    table of [n] rows and nothing else: on fewer than 100 rows its result
    is empty, and the [n mod 100] rows after the last full batch do not
    contribute to the result. *)
Theorem match_company_symbol_full_batches_only :
  (forall (constituents : list MembershipRecord) (symbols : list SymbolMapping),
      match_company_symbol constituents symbols
      = merge (firstn (100 * (List.length constituents / 100)) constituents)
              symbols)
  /\ (forall (constituents : list MembershipRecord)
             (symbols : list SymbolMapping),
         (List.length constituents < 100)%nat ->
         match_company_symbol constituents symbols = [])
  /\ (forall (batches last : list MembershipRecord)
             (symbols : list SymbolMapping),
         (List.length batches mod 100 = 0)%nat ->
         (List.length last < 100)%nat ->
         match_company_symbol (batches ++ last) symbols
         = merge batches symbols).
Proof.
  split; [exact match_company_symbol_prefix|]. split.
  - exact match_company_symbol_short.
  - exact match_company_symbol_tail.
Qed.

Lemma match_company_symbol_full_batches_only_witness :
  match_company_symbol four_companies
    [mkSymbolMapping "Alpha plc" "AAA"] = []
  /\ match_company_symbol (hundred_rows ++ four_companies)
       [mkSymbolMapping "Alpha plc" "AAA"]
     = merge hundred_rows [mkSymbolMapping "Alpha plc" "AAA"].
Proof.
  split.
  - apply (proj1 (proj2 match_company_symbol_full_batches_only)).
    simpl. lia.
  - apply (proj2 (proj2 match_company_symbol_full_batches_only)).
    + reflexivity.
    + simpl. lia.
Defined.

(** C1 (the code departs from it).  On a table of one row whose company
    is in the mapping table, the single unbounded join has one row and the
    matcher returns none: the loop runs [len // 100] times and never joins
    the rows after the last full batch. *)
Theorem match_company_symbol_loses_last_batch :
  match_company_symbol [mkMembershipRecord "2014-01-31" "Alpha plc"]
                       [mkSymbolMapping "Alpha plc" "AAA"]
  = []
  /\ unbounded_join [mkMembershipRecord "2014-01-31" "Alpha plc"]
                    [mkSymbolMapping "Alpha plc" "AAA"]
     = [mkMatchedConstituent "2014-01-31" "Alpha plc" "AAA"].
Proof. split; reflexivity. Qed.

(** On a table whose length is a multiple of 100 the batched loop and the
    single join agree. *)
Lemma match_company_symbol_whole_batches
  (constituents : list MembershipRecord) (symbols : list SymbolMapping) :
  (List.length constituents mod 100 = 0)%nat ->
  match_company_symbol constituents symbols
  = unbounded_join constituents symbols.
Proof.
  intros Hmod. unfold unbounded_join.
  rewrite <- (app_nil_r constituents) at 1.
  apply match_company_symbol_tail; [exact Hmod | simpl; lia].
Qed.

Lemma In_firstn_In {A : Type} (n : nat) (l : list A) (x : A) :
  In x (firstn n l) -> In x l.
Proof.
  intros H. rewrite <- (firstn_skipn n l). apply in_or_app. now left.
Qed.

(** C3 (as amended).  Every row of the matcher's output pairs a membership
    row with a row of the mapping table for the same company, and carries
    that row's symbol; and a membership row of the joined batches whose
    company has a row in the mapping table is in the output with that
    row's symbol, the empty symbol of a failed lookup included: the join
    drops a membership row only when its company is absent from the
    mapping table. *)
Theorem match_company_symbol_keeps_mapped_rows
  (constituents : list MembershipRecord) (symbols : list SymbolMapping) :
  (forall row : MatchedConstituent,
      In row (match_company_symbol constituents symbols) ->
      In (mkMembershipRecord (mc_Date row) (mc_Company row)) constituents
      /\ In (mkSymbolMapping (mc_Company row) (mc_Symbol row)) symbols)
  /\ (forall (m : MembershipRecord) (sm : SymbolMapping),
         In m (firstn (100 * (List.length constituents / 100)) constituents) ->
         In sm symbols ->
         sm_Company sm = mr_Company m ->
         In (mkMatchedConstituent (mr_Date m) (mr_Company m) (sm_Symbol sm))
            (match_company_symbol constituents symbols)).
Proof.
  rewrite match_company_symbol_prefix. split.
  - intros row Hrow. apply merge_In in Hrow.
    destruct Hrow as [m [sm [Hm [Hsm [Heq ->]]]]]. simpl. split.
    + apply In_firstn_In in Hm. now destruct m.
    + rewrite Heq. now destruct sm.
  - intros m sm Hm Hsm Heq. apply merge_In. exists m, sm. auto.
Qed.

Lemma match_company_symbol_keeps_mapped_rows_witness :
  In (mkMatchedConstituent "2014-01-31" "Alpha plc" "")
     (match_company_symbol hundred_rows [mkSymbolMapping "Alpha plc" ""]).
Proof.
  apply (proj2 (match_company_symbol_keeps_mapped_rows
                  hundred_rows [mkSymbolMapping "Alpha plc" ""])
               (mkMembershipRecord "2014-01-31" "Alpha plc")
               (mkSymbolMapping "Alpha plc" "")).
  - simpl. left. reflexivity.
  - simpl. left. reflexivity.
  - reflexivity.
Defined.

(** C3 as stated fails: with the search service down, the resolver records
    Alpha plc with the empty symbol, and the matcher's output on a full
    batch of Alpha plc rows still holds rows of that company. *)
Lemma match_company_symbol_unresolved_counterexample :
  let symbols :=
    fst (scrape_constituents_symbols (fun s : string => s) failing_search
                                     hundred_rows) in
  ~ (forall row : MatchedConstituent,
        In row (match_company_symbol hundred_rows symbols) ->
        ~ exists sm : SymbolMapping,
            In sm symbols
            /\ sm_Company sm = mc_Company row
            /\ sm_Symbol sm = "").
Proof.
  intros symbols H.
  apply (H (mkMatchedConstituent "2014-01-31" "Alpha plc" "")).
  - vm_compute. left. reflexivity.
  - exists (mkSymbolMapping "Alpha plc" ""). vm_compute. auto.
Qed.

(** ** Returns aggregator *)

Section SeriesProperties.

Variable V : Type.

Lemma series_at_absent (h : list (date * V)) (d : date) :
  ~ In d (map fst h) -> series_at h d = None.
Proof.
  unfold series_at. induction h as [|p h IH]; simpl; intros H; [reflexivity|].
  destruct (date_eqb (fst p) d) eqn:E.
  - apply date_eqb_eq in E. exfalso. auto.
  - apply IH. auto.
Qed.

Lemma series_at_present (h : list (date * V)) (p : date * V) :
  NoDup (map fst h) -> In p h -> series_at h (fst p) = Some (snd p).
Proof.
  unfold series_at. induction h as [|q h IH]; simpl; intros Hnd Hin; [easy|].
  inversion Hnd as [|? ? Hnotin Hnd']; subst.
  destruct (date_eqb (fst q) (fst p)) eqn:E.
  - apply date_eqb_eq in E. destruct Hin as [->|Hin]; [reflexivity|].
    exfalso. apply Hnotin. rewrite E. now apply in_map.
  - destruct Hin as [->|Hin].
    + rewrite date_eqb_refl in E. discriminate.
    + now apply IH.
Qed.

Lemma matching_absent (h : list (date * V)) (d : date) :
  ~ In d (map fst h) -> matching d h = [].
Proof.
  unfold matching. induction h as [|p h IH]; simpl; intros H; [reflexivity|].
  destruct (date_eqb (fst p) d) eqn:E.
  - apply date_eqb_eq in E. exfalso. auto.
  - apply IH. auto.
Qed.

(** In a frame with one row per date, at most one row matches a date. *)
Lemma matching_unique (h : list (date * V)) (d : date) :
  NoDup (map fst h) ->
  matching d h = match find (fun p => date_eqb (fst p) d) h with
                 | Some p => [p]
                 | None => []
                 end.
Proof.
  unfold matching. induction h as [|p h IH]; simpl; intros Hnd; [reflexivity|].
  inversion Hnd as [|? ? Hnotin Hnd']; subst.
  destruct (date_eqb (fst p) d) eqn:E.
  - apply date_eqb_eq in E. subst d. f_equal.
    now apply matching_absent.
  - now apply IH.
Qed.

Lemma join_left_row_unique (h : list (date * V))
  (r : date * list (option V)) :
  NoDup (map fst h) ->
  join_left_row h r = [(fst r, snd r ++ [series_at h (fst r)])].
Proof.
  intros Hnd. unfold join_left_row, series_at.
  rewrite matching_unique by exact Hnd.
  destruct (find (fun p => date_eqb (fst p) (fst r)) h); reflexivity.
Qed.

Lemma flat_map_singleton {A B : Type} (f : A -> list B) (g : A -> B)
  (l : list A) :
  (forall x, f x = [g x]) -> flat_map f l = map g l.
Proof.
  intros H. induction l as [|x l IH]; simpl; [reflexivity|].
  now rewrite H, IH.
Qed.

(** Keeping some rows of a frame with one row per date leaves one row per
    date. *)
Lemma frame_dates_filter (keep : date * V -> bool) (h : list (date * V)) :
  NoDup (map fst h) -> NoDup (map fst (filter keep h)).
Proof.
  induction h as [|q h IH]; simpl; intros Hnd; [constructor|].
  inversion Hnd as [|? ? Hnotin Hnd']; subst.
  destruct (keep q); simpl; [|now apply IH].
  constructor; [|now apply IH].
  intros Hin. apply Hnotin. apply in_map_iff in Hin.
  destruct Hin as [y [Hy Hin]]. apply filter_In in Hin.
  rewrite <- Hy. apply in_map. tauto.
Qed.

Lemma existsb_date_In (d : date) (l : list date) :
  existsb (date_eqb d) l = true <-> In d l.
Proof.
  rewrite existsb_exists. split.
  - intros [x [Hin Heq]]. apply date_eqb_eq in Heq. now subst.
  - intros H. exists d. split; [exact H | apply date_eqb_refl].
Qed.

End SeriesProperties.

Section TableInvariant.

Variable V : Type.

Local Abbreviation frame := (list (date * V)).

Lemma seed_inv (name : string) (h : frame) :
  NoDup (map fst h) -> table_inv [(name, h)] (seed name h).
Proof.
  intros Hnd.
  assert (Hdates : dates (seed name h) = map fst h).
  { unfold dates, seed. simpl. rewrite map_map. reflexivity. }
  constructor.
  - reflexivity.
  - intros r Hr. simpl in Hr. apply in_map_iff in Hr.
    destruct Hr as [p [<- _]]. reflexivity.
  - now rewrite Hdates.
  - intros d. rewrite Hdates. split.
    + intros Hd. exists (name, h). simpl. auto.
    + intros [nh [[<-|[]] Hd]]. exact Hd.
  - intros j nh r Hj Hr.
    destruct j as [|j]; simpl in Hj; [|destruct j; discriminate].
    inversion Hj; subst nh; clear Hj. simpl in Hr.
    apply in_map_iff in Hr. destruct Hr as [p [<- Hp]]. simpl.
    symmetry. now apply series_at_present.
Qed.

(** The rows of an outer join with a frame that has one row per date. *)
Lemma outer_join_rows (t : Wide V) (name : string) (h : frame) :
  NoDup (map fst h) ->
  rows (outer_join t name h)
  = map (fun r => (fst r, snd r ++ [series_at h (fst r)])) (rows t)
    ++ right_only (List.length (columns t)) (dates t) h.
Proof.
  intros Hnd. unfold outer_join, dates. simpl. f_equal.
  apply flat_map_singleton. intros r. now apply join_left_row_unique.
Qed.

Lemma outer_join_dates (t : Wide V) (name : string) (h : frame) :
  NoDup (map fst h) ->
  dates (outer_join t name h)
  = dates t
    ++ map fst (filter (fun p => negb (existsb (date_eqb (fst p)) (dates t))) h).
Proof.
  intros Hnd. unfold dates at 1. rewrite outer_join_rows by exact Hnd.
  rewrite map_app, map_map. simpl. unfold right_only.
  rewrite map_map. simpl. reflexivity.
Qed.

Lemma right_only_In (w : nat) (ds : list date) (h : frame)
  (r : date * list (option V)) :
  In r (right_only w ds h)
  <-> exists p, In p h /\ ~ In (fst p) ds
                /\ r = (fst p, repeat None w ++ [Some (snd p)]).
Proof.
  unfold right_only. rewrite in_map_iff. split.
  - intros [p [<- Hp]]. apply filter_In in Hp. destruct Hp as [Hp Hn].
    exists p. split; [exact Hp|]. split; [|reflexivity].
    intros Hin. apply existsb_date_In in Hin. rewrite Hin in Hn. discriminate.
  - intros [p [Hp [Hn ->]]]. exists p. split; [reflexivity|].
    apply filter_In. split; [exact Hp|].
    destruct (existsb (date_eqb (fst p)) ds) eqn:E; [|reflexivity].
    apply existsb_date_In in E. contradiction.
Qed.

(** One outer join keeps the table consistent with the frames merged. *)
Lemma outer_join_inv (done : list (string * frame)) (t : Wide V)
  (name : string) (h : frame) :
  table_inv done t -> NoDup (map fst h) ->
  table_inv (done ++ [(name, h)]) (outer_join t name h).
Proof.
  intros [Hcols Hwidth Hnd Hdates Hcells] Hh.
  assert (Hw : List.length (columns t) = List.length done).
  { now rewrite Hcols, length_map. }
  constructor.
  - simpl. now rewrite map_app, Hcols.
  - intros r. rewrite outer_join_rows, in_app_iff, in_map_iff by exact Hh.
    rewrite right_only_In, !length_app. simpl.
    intros [[r0 [<- Hr0]]|[p [_ [_ ->]]]]; simpl.
    + now rewrite length_app, (Hwidth _ Hr0).
    + now rewrite length_app, repeat_length, Hw.
  - rewrite outer_join_dates by exact Hh.
    apply NoDup_app; [exact Hnd | now apply frame_dates_filter |].
    intros d Hd Hin. apply in_map_iff in Hin.
    destruct Hin as [p [<- Hp]]. apply filter_In in Hp.
    destruct Hp as [_ Hp]. apply existsb_date_In in Hd.
    rewrite Hd in Hp. discriminate.
  - intros d. rewrite outer_join_dates by exact Hh.
    rewrite in_app_iff, Hdates. split.
    + intros [[nh [Hnh Hd]]|Hd].
      * exists nh. split; [apply in_or_app; now left | exact Hd].
      * exists (name, h). split; [apply in_or_app; right; now left|].
        simpl. apply in_map_iff in Hd. destruct Hd as [p [<- Hp]].
        apply filter_In in Hp. apply in_map. tauto.
    + intros [nh [Hnh Hd]]. apply in_app_or in Hnh.
      destruct Hnh as [Hnh|[<-|[]]].
      * left. exists nh. auto.
      * simpl in Hd.
        destruct (in_dec date_eq_dec d (dates t)) as [Hin|Hout].
        -- left. now apply Hdates.
        -- right. apply in_map_iff in Hd. destruct Hd as [p [<- Hp]].
           apply in_map. apply filter_In. split; [exact Hp|].
           destruct (existsb (date_eqb (fst p)) (dates t)) eqn:E;
             [|reflexivity].
           apply existsb_date_In in E. contradiction.
  - intros j nh r Hj.
    rewrite outer_join_rows, in_app_iff, in_map_iff by exact Hh.
    rewrite right_only_In.
    rewrite nth_error_app in Hj.
    destruct (Nat.ltb j (List.length done)) eqn:Hlt.
    + apply Nat.ltb_lt in Hlt.
      intros [[r0 [<- Hr0]]|[p [Hp [Hout ->]]]]; simpl.
      * rewrite app_nth1 by now rewrite (Hwidth _ Hr0).
        now apply Hcells.
      * rewrite app_nth1 by now rewrite repeat_length, Hw.
        rewrite nth_repeat. symmetry. apply series_at_absent.
        intros Hin. apply Hout. apply Hdates. exists nh.
        split; [now apply nth_error_In with j | exact Hin].
    + apply Nat.ltb_ge in Hlt.
      destruct (j - List.length done)%nat as [|k] eqn:Hk;
        [|destruct k; discriminate].
      simpl in Hj. inversion Hj; subst nh; clear Hj.
      assert (j = List.length done) by lia. subst j. simpl.
      intros [[r0 [<- Hr0]]|[p [Hp [Hout ->]]]]; simpl.
      * rewrite <- (Hwidth _ Hr0). apply nth_middle.
      * rewrite <- Hw.
        rewrite <- (repeat_length (@None V) (List.length (columns t))) at 1.
        rewrite nth_middle. symmetry. now apply series_at_present.
Qed.

End TableInvariant.

Section WideTableProperties.

Variable V : Type.

Lemma index_of_nth_error (s : string) (l : list string) (j : nat) :
  index_of s l = Some j -> nth_error l j = Some s.
Proof.
  revert j. induction l as [|x l IH]; simpl; intros j; [discriminate|].
  destruct (String.eqb s x) eqn:E.
  - apply String.eqb_eq in E. intros H. inversion H. now subst.
  - destruct (index_of s l) as [i|]; [|discriminate].
    intros H. inversion H. simpl. now apply IH.
Qed.

Lemma index_of_In (s : string) (l : list string) :
  In s l -> exists j, index_of s l = Some j.
Proof.
  induction l as [|x l IH]; simpl; [intros []|].
  destruct (String.eqb s x) eqn:E; [eauto|].
  intros [->|Hin].
  - rewrite String.eqb_refl in E. discriminate.
  - destruct (IH Hin) as [j ->]. eauto.
Qed.

Lemma NoDup_keys_functional {B : Type} (l : list (string * B))
  (a : string) (b b' : B) :
  NoDup (map fst l) -> In (a, b) l -> In (a, b') l -> b = b'.
Proof.
  induction l as [|[k v] l IH]; simpl; intros Hnd H1 H2; [easy|].
  inversion Hnd as [|? ? Hnotin Hnd']; subst.
  destruct H1 as [H1|H1], H2 as [H2|H2].
  - congruence.
  - inversion H1; subst. exfalso. apply Hnotin.
    change a with (fst (a, b')). now apply in_map.
  - inversion H2; subst. exfalso. apply Hnotin.
    change a with (fst (a, b)). now apply in_map.
  - now apply IH.
Qed.

Lemma value_at_no_row (t : Wide V) (d : date) (s : string) :
  ~ In d (dates t) -> value_at t d s = None.
Proof.
  intros Hout. unfold value_at.
  destruct (find (fun r => date_eqb (fst r) d) (rows t)) as [r|] eqn:E;
    [|reflexivity].
  apply find_some in E. destruct E as [Hr Hd]. apply date_eqb_eq in Hd.
  exfalso. apply Hout. rewrite <- Hd. unfold dates. now apply in_map.
Qed.

(** In a consistent table with distinct column names, the cell of a
    merged frame on a date of the table is the frame's value there. *)
Lemma value_at_inv (done : list (string * list (date * V))) (t : Wide V)
  (s : string) (h : list (date * V)) (d : date) :
  table_inv done t -> NoDup (map fst done) -> In (s, h) done ->
  In d (dates t) -> value_at t d s = series_at h d.
Proof.
  intros [Hcols Hwidth Hnd Hdates Hcells] Hnames Hin Hd.
  unfold value_at.
  destruct (find (fun r => date_eqb (fst r) d) (rows t)) as [r|] eqn:E.
  - apply find_some in E. destruct E as [Hr Hrd]. apply date_eqb_eq in Hrd.
    rewrite Hcols.
    assert (Hs : In s (map fst done)).
    { change s with (fst (s, h)). now apply in_map. }
    destruct (index_of_In _ _ Hs) as [j Hj]. rewrite Hj.
    apply index_of_nth_error in Hj.
    rewrite nth_error_map in Hj.
    destruct (nth_error done j) as [[s' h']|] eqn:Ej; [|discriminate].
    simpl in Hj. inversion Hj; subst s'.
    assert (h' = h).
    { apply (NoDup_keys_functional done s); auto.
      now apply nth_error_In with j. }
    subst h'. rewrite (Hcells j (s, h) r Ej Hr). simpl. now rewrite Hrd.
  - exfalso. unfold dates in Hd. apply in_map_iff in Hd.
    destruct Hd as [r [Hrd Hr]].
    apply (find_none _ _ E) in Hr. rewrite Hrd, date_eqb_refl in Hr.
    discriminate.
Qed.

End WideTableProperties.

Section AggregatorProperties.

Variable SearchObj : Type.
Variable search_quotes : string -> result SearchObj.
Variable V : Type.
Variable retrieve_historical_data :
  SearchObj -> string -> string -> result (list (date * V)).
Variables start_date end_date : string.

Local Abbreviation fetch' :=
  (fun s => fetch search_quotes retrieve_historical_data s start_date end_date).
Local Abbreviation fetched' :=
  (fetched search_quotes retrieve_historical_data start_date end_date).
Local Abbreviation step :=
  (aggregate_one search_quotes retrieve_historical_data start_date end_date).

(** The three ways the body of the loop leaves the table as it is, and
    the one way it merges. *)
Lemma step_failed (t : Wide V) (s : string) (x : exn) :
  fetch' s = Raise x -> step t s = t.
Proof. intros H. unfold aggregate_one. rewrite H. reflexivity. Qed.

Lemma step_date_column (t : Wide V) (s : string) :
  In "Date" (columns t) -> step t s = t.
Proof.
  intros H. unfold aggregate_one, merge_outer.
  apply existsb_eqb_In in H. rewrite H.
  destruct (fetch search_quotes retrieve_historical_data s
                  start_date end_date); reflexivity.
Qed.

Lemma step_named_date (t : Wide V) : step t "Date" = t.
Proof.
  unfold aggregate_one, merge_outer. rewrite orb_true_r.
  destruct (fetch search_quotes retrieve_historical_data "Date"
                  start_date end_date); reflexivity.
Qed.

Lemma step_merged (t : Wide V) (s : string) (h : list (date * V)) :
  fetch' s = Ok h -> ~ In "Date" (columns t) -> s <> "Date" ->
  step t s = outer_join t s h.
Proof.
  intros Hf Hcols Hs.
  assert (E : existsb (String.eqb "Date") (columns t) = false).
  { destruct (existsb (String.eqb "Date") (columns t)) eqn:E; [|reflexivity].
    apply existsb_eqb_In in E. contradiction. }
  assert (E' : String.eqb "Date" s = false).
  { apply String.eqb_neq. congruence. }
  unfold aggregate_one, merge_outer. rewrite Hf. cbn [bind].
  rewrite E, E'. reflexivity.
Qed.

Lemma fetched_In (symbols : list string) (s : string) (h : list (date * V)) :
  In (s, h) (fetched' symbols)
  <-> In s symbols /\ fetch' s = Ok h /\ s <> "Date".
Proof.
  unfold fetched. rewrite in_flat_map. split.
  - intros [x [Hx Hin]].
    destruct (fetch search_quotes retrieve_historical_data x start_date end_date)
      as [hx|e] eqn:E; [|contradiction].
    destruct (String.eqb "Date" x) eqn:E'; [contradiction|].
    apply String.eqb_neq in E'.
    destruct Hin as [Hin|[]]. inversion Hin; subst. auto.
  - intros [Hs [Hf Hne]]. exists s. split; [exact Hs|]. rewrite Hf.
    destruct (String.eqb "Date" s) eqn:E'.
    + apply String.eqb_eq in E'. congruence.
    + now left.
Qed.

Lemma fetched_names (symbols : list string) :
  map fst (fetched' symbols)
  = filter (fun s => is_ok (fetch' s) && negb (String.eqb "Date" s)) symbols.
Proof.
  unfold fetched. induction symbols as [|s symbols IH]; [reflexivity|].
  cbn [flat_map filter]. rewrite map_app, IH.
  destruct (fetch search_quotes retrieve_historical_data s start_date end_date);
    cbn [is_ok andb]; [|reflexivity].
  destruct (String.eqb "Date" s); reflexivity.
Qed.

(** The loop over the later symbols on a table without a ["Date"] column:
    a symbol whose fetch fails or that is called ["Date"] leaves the table
    as it is, the others are merged in turn. *)
Lemma aggregate_loop_inv (others : list string) :
  forall (done : list (string * list (date * V))) (t : Wide V),
    table_inv done t ->
    ~ In "Date" (columns t) ->
    (forall s h, In s others -> fetch' s = Ok h -> NoDup (map fst h)) ->
    table_inv (done ++ fetched' others) (fold_left step others t).
Proof.
  induction others as [|s others IH]; intros done t Hinv Hcols Hnd.
  - simpl. now rewrite app_nil_r.
  - assert (Hrest : forall s' h', In s' others -> fetch' s' = Ok h' ->
                                  NoDup (map fst h')).
    { intros s' h' Hs'. apply Hnd. now right. }
    cbn [fold_left]. unfold fetched. cbn [flat_map]. fold fetched'.
    destruct (fetch search_quotes retrieve_historical_data s start_date end_date)
      as [h|e] eqn:E.
    + destruct (String.eqb "Date" s) eqn:E'.
      * apply String.eqb_eq in E'. subst s. rewrite step_named_date.
        now apply IH.
      * apply String.eqb_neq in E'.
        rewrite (step_merged t E Hcols) by congruence.
        rewrite app_assoc. apply IH; [| |exact Hrest].
        -- apply outer_join_inv; [exact Hinv|].
           apply (Hnd s h); [now left | exact E].
        -- simpl. rewrite in_app_iff. simpl. intuition congruence.
    + rewrite (step_failed t s E). now apply IH.
Qed.

(** When the first symbol is called ["Date"] nothing is merged after it. *)
Lemma loop_date_column (others : list string) (t : Wide V) :
  In "Date" (columns t) -> fold_left step others t = t.
Proof.
  intros H. induction others as [|s others IH]; [reflexivity|].
  cbn [fold_left]. now rewrite step_date_column.
Qed.

(** Once the first fetch has succeeded the aggregator returns, and its
    table holds the first symbol and the later symbols that were merged. *)
Lemma scrape_daily_returns_table (constituents : list MatchedConstituent)
  (first : string) (others : list string) (h0 : list (date * V)) :
  map mc_Symbol (drop_duplicates mc_Symbol constituents) = first :: others ->
  fetch' first = Ok h0 ->
  (forall s h, In s (first :: others) -> fetch' s = Ok h ->
               NoDup (map fst h)) ->
  exists t : Wide V,
    scrape_daily_returns search_quotes retrieve_historical_data
                         constituents start_date end_date = Ok t
    /\ table_inv ((first, h0)
                  :: if String.eqb "Date" first then [] else fetched' others)
                 t.
Proof.
  intros Hsym Hfirst Hnd.
  unfold scrape_daily_returns. rewrite Hsym, Hfirst. cbn [bind].
  eexists. split; [reflexivity|].
  assert (Hseed : table_inv [(first, h0)] (seed first h0)).
  { apply seed_inv. apply (Hnd first h0); [now left | exact Hfirst]. }
  destruct (String.eqb "Date" first) eqn:E.
  - apply String.eqb_eq in E. subst first.
    rewrite loop_date_column by (simpl; now left). exact Hseed.
  - apply String.eqb_neq in E.
    change ((first, h0) :: fetched' others)
      with ([(first, h0)] ++ fetched' others).
    apply aggregate_loop_inv; [exact Hseed | |].
    + simpl. intuition congruence.
    + intros s h Hs. apply Hnd. now right.
Qed.

Lemma symbols_distinct (constituents : list MatchedConstituent) :
  NoDup (map mc_Symbol (drop_duplicates mc_Symbol constituents)).
Proof.
  unfold drop_duplicates.
  apply (drop_duplicates_from_keys mc_Symbol [] constituents).
Qed.

Lemma filter_all {A : Type} (p : A -> bool) (l : list A) :
  (forall x, In x l -> p x = true) -> filter p l = l.
Proof.
  induction l as [|x l IH]; simpl; intros H; [reflexivity|].
  rewrite (H x) by now left. f_equal. apply IH. intros y Hy. apply H. now right.
Qed.

(** When every fetch succeeds with one row per date and no symbol is
    called ["Date"], the table has one column per symbol, one row per date
    of the union of the frames, and each symbol's value exactly on the
    symbol's own dates. *)
Lemma scrape_daily_returns_union (constituents : list MatchedConstituent) :
  let symbols := map mc_Symbol (drop_duplicates mc_Symbol constituents) in
  symbols <> [] ->
  ~ In "Date" symbols ->
  (forall s, In s symbols ->
             exists h, fetch' s = Ok h /\ NoDup (map fst h)) ->
  exists t : Wide V,
    scrape_daily_returns search_quotes retrieve_historical_data
                         constituents start_date end_date = Ok t
    /\ columns t = symbols
    /\ NoDup (dates t)
    /\ (forall d, In d (dates t)
                  <-> exists s h, In s symbols /\ fetch' s = Ok h
                                  /\ In d (map fst h))
    /\ (forall s h, In s symbols -> fetch' s = Ok h ->
          (forall d v, In (d, v) h -> value_at t d s = Some v)
          /\ (forall d, ~ In d (map fst h) -> value_at t d s = None)).
Proof.
  intros symbols Hne Hnodate Hall.
  pose proof (symbols_distinct constituents) as Hdistinct.
  fold symbols in Hdistinct.
  destruct symbols as [|first others] eqn:Hsym; [congruence|]. clear Hne.
  destruct (Hall first (or_introl eq_refl)) as [h0 [Hfirst _]].
  assert (Hnd : forall s h, In s (first :: others) -> fetch' s = Ok h ->
                            NoDup (map fst h)).
  { intros s h Hs Hf. destruct (Hall s Hs) as [h' [Hf' Hh']]. congruence. }
  destruct (scrape_daily_returns_table constituents Hsym Hfirst Hnd)
    as [t [Hrun Hinv]].
  assert (Efirst : String.eqb "Date" first = false).
  { apply String.eqb_neq. intros E. apply Hnodate. now left. }
  rewrite Efirst in Hinv.
  assert (Hok : filter (fun s => is_ok (fetch' s)
                                 && negb (String.eqb "Date" s)) others
                = others).
  { apply filter_all. intros s Hs.
    destruct (Hall s (or_intror Hs)) as [h [-> _]]. cbn [is_ok andb].
    destruct (String.eqb "Date" s) eqn:E; [|reflexivity].
    apply String.eqb_eq in E. exfalso. apply Hnodate. right. congruence. }
  assert (Hdone : forall s h,
             In (s, h) ((first, h0) :: fetched' others)
             <-> In s (first :: others) /\ fetch' s = Ok h).
  { intros s h. cbn [In]. rewrite fetched_In. split.
    - intros [H|[H1 [H2 _]]]; [inversion H; subst; auto | auto].
    - intros [[<-|Hs] Hf]; [left; congruence | right].
      split; [exact Hs|]. split; [exact Hf|].
      intros E. apply Hnodate. right. congruence. }
  assert (Hkeys : NoDup (map fst ((first, h0) :: fetched' others))).
  { simpl. rewrite fetched_names, Hok. exact Hdistinct. }
  exists t. split; [exact Hrun|]. split.
  { rewrite (inv_columns Hinv). simpl. now rewrite fetched_names, Hok. }
  split; [exact (inv_nodup Hinv)|]. split.
  - intros d. rewrite (inv_dates Hinv). split.
    + intros [[s h] [Hin Hd]]. apply Hdone in Hin. exists s, h. tauto.
    + intros [s [h [Hs [Hf Hd]]]]. exists (s, h). split; [|exact Hd].
      apply Hdone. auto.
  - intros s h Hs Hf.
    assert (Hin : In (s, h) ((first, h0) :: fetched' others))
      by (apply Hdone; auto).
    split.
    + intros d v Hv.
      assert (Hd : In d (dates t)).
      { apply (inv_dates Hinv). exists (s, h). split; [exact Hin|].
        simpl. change d with (fst (d, v)). now apply in_map. }
      rewrite (@value_at_inv _ _ _ _ _ _ Hinv Hkeys Hin Hd).
      apply (@series_at_present _ h (d, v)); [|exact Hv].
      now apply (Hnd s h).
    + intros d Hout.
      destruct (in_dec date_eq_dec d (dates t)) as [Hd|Hd].
      * rewrite (@value_at_inv _ _ _ _ _ _ Hinv Hkeys Hin Hd).
        now apply series_at_absent.
      * now apply value_at_no_row.
Qed.

End AggregatorProperties.

(** The fetch of the first symbol is outside the loop's [try]: when it
    fails, the exception reaches the caller. *)
Lemma scrape_daily_returns_first_failure
  (SearchObj V : Type) (search_quotes : string -> result SearchObj)
  (retrieve_historical_data :
     SearchObj -> string -> string -> result (list (date * V)))
  (constituents : list MatchedConstituent) (start_date end_date : string)
  (first : string) (others : list string) (e : exn) :
  map mc_Symbol (drop_duplicates mc_Symbol constituents) = first :: others ->
  fetch search_quotes retrieve_historical_data first start_date end_date
  = Raise e ->
  scrape_daily_returns search_quotes retrieve_historical_data
                       constituents start_date end_date
  = Raise e.
Proof.
  intros Hsym Hfirst. unfold scrape_daily_returns.
  rewrite Hsym, Hfirst. reflexivity.
Qed.

(** C2 (the code departs from it).  With ZZZ unknown to the service: when
    ZZZ is the first symbol of the table the aggregator raises; when it
    comes after XXX the failure is swallowed and the table has the XXX
    column alone. *)
Theorem scrape_daily_returns_first_symbol_unguarded :
  scrape_daily_returns sample_quotes sample_history matched_ZX
                       "01/01/2014" "31/01/2014"
  = Raise ExternalError
  /\ scrape_daily_returns sample_quotes sample_history matched_XZ
                          "01/01/2014" "31/01/2014"
     = Ok (mkWide ["XXX"]
                  [ (mkdate 2014 1 1, [Some 10]);
                    (mkdate 2014 1 2, [Some (-20)]);
                    (mkdate 2014 1 3, [Some 30]) ]).
Proof. split; reflexivity. Qed.

(** C8 (as amended).  For a table with at least one symbol and no symbol
    called ["Date"], when the fetch of every symbol succeeds and gives a
    series with distinct dates, the aggregator returns a table with one
    column per symbol, at most one row per date, the union of the symbols'
    dates as its dates, and each symbol's value present on the symbol's
    own dates and absent on every other date; with XXX trading on days 1,
    2, 3 and YYY on days 2, 3, 4, the table has days 1 to 4, XXX is absent
    on day 4 and YYY on day 1. *)
Theorem scrape_daily_returns_outer_join :
  (forall (SearchObj V : Type) (search_quotes : string -> result SearchObj)
          (retrieve_historical_data :
             SearchObj -> string -> string -> result (list (date * V)))
          (constituents : list MatchedConstituent)
          (start_date end_date : string),
      let symbols := map mc_Symbol (drop_duplicates mc_Symbol constituents) in
      let series :=
        fun s => fetch search_quotes retrieve_historical_data
                       s start_date end_date in
      symbols <> [] ->
      ~ In "Date" symbols ->
      (forall s, In s symbols ->
                 exists h, series s = Ok h /\ NoDup (map fst h)) ->
      exists t : Wide V,
        scrape_daily_returns search_quotes retrieve_historical_data
                             constituents start_date end_date = Ok t
        /\ columns t = symbols
        /\ NoDup (dates t)
        /\ (forall d, In d (dates t)
                      <-> exists s h, In s symbols /\ series s = Ok h
                                      /\ In d (map fst h))
        /\ (forall s h, In s symbols -> series s = Ok h ->
              (forall d v, In (d, v) h -> value_at t d s = Some v)
              /\ (forall d, ~ In d (map fst h) -> value_at t d s = None)))
  /\ scrape_daily_returns sample_quotes sample_history matched_XY
                          "01/01/2014" "31/01/2014"
     = Ok (mkWide ["XXX"; "YYY"]
                  [ (mkdate 2014 1 1, [Some 10; None]);
                    (mkdate 2014 1 2, [Some (-20); Some 25]);
                    (mkdate 2014 1 3, [Some 30; Some (-35)]);
                    (mkdate 2014 1 4, [None; Some 45]) ]).
Proof.
  split; [|reflexivity].
  intros SearchObj V search_quotes retrieve_historical_data
         constituents start_date end_date symbols series Hne Hnodate Hall.
  exact (scrape_daily_returns_union search_quotes retrieve_historical_data
           start_date end_date constituents Hne Hnodate Hall).
Qed.

Lemma sample_series_distinct (s : string) :
  In s (map mc_Symbol (drop_duplicates mc_Symbol matched_XY)) ->
  exists h, fetch sample_quotes sample_history s "01/01/2014" "31/01/2014"
            = Ok h
            /\ NoDup (map fst h).
Proof.
  simpl. intros [<-|[<-|[]]]; eexists; (split; [reflexivity|]);
    simpl; repeat constructor; simpl; intuition congruence.
Qed.

Lemma scrape_daily_returns_outer_join_witness :
  exists t : Wide Z,
    scrape_daily_returns sample_quotes sample_history matched_XY
                         "01/01/2014" "31/01/2014" = Ok t
    /\ columns t = ["XXX"; "YYY"]
    /\ NoDup (dates t).
Proof.
  destruct (proj1 scrape_daily_returns_outer_join
              string Z sample_quotes sample_history matched_XY
              "01/01/2014" "31/01/2014")
    as [t [Hrun [Hcols [Hnd _]]]].
  - simpl. discriminate.
  - simpl. intuition discriminate.
  - exact sample_series_distinct.
  - exists t. split; [exact Hrun|]. split; [exact Hcols | exact Hnd].
Defined.

Lemma date_series_distinct (s : string) :
  In s (map mc_Symbol (drop_duplicates mc_Symbol matched_XD)) ->
  exists h, fetch date_quotes date_history s "01/01/2014" "31/01/2014"
            = Ok h
            /\ NoDup (map fst h).
Proof.
  simpl. intros [<-|[<-|[]]]; eexists; (split; [reflexivity|]);
    simpl; repeat constructor; simpl; intuition congruence.
Qed.

(** C8 as stated fails twice.  On the empty table every fetch succeeds
    (there is none) and the aggregator raises [IndexError] instead of
    returning a table.  And with a symbol called ["Date"] after XXX, both
    fetched with distinct dates, the merge of the second frame raises
    inside the [try] and is skipped: day 4, a date of that symbol only, is
    not in the table. *)
Lemma scrape_daily_returns_outer_join_counterexample :
  ~ outer_join_claim sample_quotes sample_history []
                     "01/01/2014" "31/01/2014"
  /\ ~ outer_join_claim date_quotes date_history matched_XD
                        "01/01/2014" "31/01/2014".
Proof.
  split; intros H.
  - destruct H as [t [Hrun _]]; [intros s []|]. discriminate Hrun.
  - destruct (H date_series_distinct) as [t [Hrun [_ [Hdates _]]]].
    vm_compute in Hrun. inversion Hrun; subst t; clear Hrun.
    assert (Hin : In (mkdate 2014 1 4)
                     (dates (mkWide ["XXX"]
                               [ (mkdate 2014 1 1, [Some 10]);
                                 (mkdate 2014 1 2, [Some (-20)]);
                                 (mkdate 2014 1 3, [Some 30]) ]))).
    { apply Hdates. exists "Date". eexists.
      split; [simpl; auto|]. split; [reflexivity|]. simpl. auto. }
    simpl in Hin. intuition discriminate.
Qed.

(* ====================================================================== *)
(** * Further properties *)

(** ** Date-window calculator *)

(** X1.  On two dates of the calendar written yyyy-mm-dd, in either
    order, [months_between_date] does not fail and returns
    [(end.year - start.year) * 12 + (end.month - start.month) + 1]. *)
Theorem months_between_date_isoformat (a b : date) :
  valid_date a -> valid_date b ->
  months_between_date (isoformat a) (isoformat b)
  = Ok ((year b - year a) * 12 + (month b - month a) + 1).
Proof.
  intros Ha Hb. apply months_between_date_ok; now apply isoformat_parses.
Qed.

Lemma months_between_date_isoformat_witness :
  months_between_date (isoformat (mkdate 2014 1 1)) (isoformat (mkdate 2021 7 1))
  = Ok 91.
Proof.
  apply (@months_between_date_isoformat (mkdate 2014 1 1) (mkdate 2021 7 1));
    unfold valid_date; cbn [year month day].
  - change (days_in_month 2014 1) with 31. lia.
  - change (days_in_month 2021 7) with 31. lia.
Defined.

(** X2.  The docstring's caution: an end date given as a day of the
    following month (the first of the next month instead of the last day
    of the month) counts one month more. *)
Theorem months_between_date_next_month (s e e' : string) (de de' : date)
  (f : Z) :
  strptime e = Ok de -> strptime e' = Ok de' -> in_next_month de de' ->
  months_between_date s e = Ok f ->
  months_between_date s e' = Ok (f + 1).
Proof.
  intros He He' Hnext. unfold months_between_date. rewrite He, He'. simpl.
  destruct (strptime s) as [ds|x]; simpl; [|discriminate].
  intros H. inversion H; subst f; clear H. f_equal.
  destruct Hnext as [[_ [-> ->]]|[-> [-> ->]]]; lia.
Qed.

Lemma months_between_date_next_month_witness :
  months_between_date "2014-01-01" "2014-07-01" = Ok (6 + 1).
Proof.
  apply (@months_between_date_next_month
           "2014-01-01" "2014-06-30" "2014-07-01"
           (mkdate 2014 6 30) (mkdate 2014 7 1) 6).
  - reflexivity.
  - reflexivity.
  - left. cbn [year month]. lia.
  - reflexivity.
Defined.



(** X4.  Chaining two windows that share their middle date counts the
    shared month twice:
    [months(a, c) = months(a, b) + months(b, c) - 1]. *)
Theorem months_between_date_chain (a b c : string) (f g : Z) :
  months_between_date a b = Ok f ->
  months_between_date b c = Ok g ->
  months_between_date a c = Ok (f + g - 1).
Proof.
  unfold months_between_date.
  destruct (strptime b) as [db|x]; simpl; [|discriminate].
  destruct (strptime a) as [da|x]; simpl; [|discriminate].
  destruct (strptime c) as [dc|x]; simpl; [|discriminate].
  intros Hf Hg. inversion Hf; inversion Hg; subst. f_equal. lia.
Qed.

Lemma months_between_date_chain_witness :
  months_between_date "2014-01-01" "2021-07-01" = Ok (12 + 80 - 1).
Proof.
  apply (@months_between_date_chain "2014-01-01" "2014-12-31" "2021-07-01");
    reflexivity.
Defined.

(** ** Constituent filter *)

Lemma counts_filter_keys (q : string * nat -> bool)
  (acc : list (string * nat)) :
  NoDup (map fst acc) -> NoDup (map fst (filter q acc)).
Proof.
  induction acc as [|e acc IH]; simpl; intros Hnd; [constructor|].
  inversion Hnd as [|? ? Hnotin Hnd']; subst.
  destruct (q e); simpl; [|now apply IH].
  constructor; [|now apply IH].
  intros Hin. apply Hnotin. apply in_map_iff in Hin.
  destruct Hin as [e' [He' Hin]]. apply filter_In in Hin.
  rewrite <- He'. apply in_map. tauto.
Qed.

Lemma value_counts_wf (l : list string) : counts_wf (value_counts l).
Proof. apply fold_bump_wf. split; constructor. Qed.

(** X5.  The filter returns no identifier twice. *)
Theorem common_constituents_NoDup
  (t : list ConstituentRow) (s e : string) (out : list string) :
  common_constituents t s e = Ok out -> NoDup out.
Proof.
  intros Hcc.
  destruct (common_constituents_inv _ _ _ Hcc) as (sliced & f & _ & _ & ->).
  apply counts_filter_keys. apply value_counts_wf.
Qed.

Lemma common_constituents_NoDup_witness : NoDup ["A"].
Proof.
  apply (@common_constituents_NoDup six_month_table
           "2014-01-01" "2014-06-30" ["A"]).
  reflexivity.
Defined.

Lemma window_backwards (s e : string) (t : list ConstituentRow) :
  String.leb s e = false ->
  filter (fun r => String.leb s (Date r) && String.leb (Date r) e) t = [].
Proof.
  intros H. induction t as [|r t IH]; [reflexivity|]. cbn [filter].
  destruct (String.leb s (Date r) && String.leb (Date r) e) eqn:E;
    [|exact IH].
  apply andb_true_iff in E. destruct E as [E1 E2].
  rewrite (string_leb_trans _ _ _ E1 E2) in H. discriminate.
Qed.

(** X6.  On a table in ascending order of its date labels, a window of
    two yyyy-mm-dd dates given backwards (start date after end date) is
    not an error: the filter returns the empty list. *)
Theorem common_constituents_backwards
  (t : list ConstituentRow) (lo hi : date) :
  is_monotonic_increasing (map Date t) = true ->
  valid_date lo -> valid_date hi -> date_leb lo hi = false ->
  common_constituents t (isoformat lo) (isoformat hi) = Ok [].
Proof.
  intros Hmono Hlo Hhi Hback.
  rewrite (common_constituents_sorted _ _ _ Hmono).
  rewrite (months_between_date_ok _ _ (isoformat_parses Hlo)
                                  (isoformat_parses Hhi)).
  cbn [bind]. rewrite window_backwards; [reflexivity|].
  now rewrite isoformat_leb.
Qed.

Lemma backwards_window_valid :
  valid_date (mkdate 2014 6 30) /\ valid_date (mkdate 2014 1 1).
Proof.
  unfold valid_date. cbn [year month day].
  change (days_in_month 2014 6) with 30.
  change (days_in_month 2014 1) with 31. lia.
Qed.

Lemma common_constituents_backwards_witness :
  common_constituents six_month_table
    (isoformat (mkdate 2014 6 30)) (isoformat (mkdate 2014 1 1)) = Ok [].
Proof.
  apply (@common_constituents_backwards six_month_table
           (mkdate 2014 6 30) (mkdate 2014 1 1)).
  - reflexivity.
  - exact (proj1 backwards_window_valid).
  - exact (proj2 backwards_window_valid).
  - reflexivity.
Defined.

Lemma occurrences_app (id : string) (a b : list ConstituentRow) :
  occurrences id (a ++ b) = (occurrences id a + occurrences id b)%nat.
Proof. unfold occurrences. now rewrite filter_app, length_app. Qed.

(** X7.  Between two tables that are both in ascending order of their
    date labels, rows whose label lies outside the window of the two
    bounds and rows with a missing cell make no difference: if the second
    table holds the rows of the first and such rows besides, the filter
    returns the same set of identifiers on both (and fails on the same
    malformed window). *)
Theorem common_constituents_ignores
  (t t' extra : list ConstituentRow) (s e : string) :
  is_monotonic_increasing (map Date t) = true ->
  is_monotonic_increasing (map Date t') = true ->
  Permutation t' (t ++ extra) ->
  (forall r, In r extra ->
             String.leb s (Date r) && String.leb (Date r) e = false
             \/ complete r = false) ->
  match common_constituents t s e, common_constituents t' s e with
  | Ok out, Ok out' => forall id : string, In id out <-> In id out'
  | Raise x, Raise x' => x = x'
  | _, _ => False
  end.
Proof.
  intros Hmono Hmono' Hperm Hextra.
  rewrite (common_constituents_sorted _ _ _ Hmono).
  rewrite (common_constituents_sorted _ _ _ Hmono').
  destruct (months_between_date s e) as [f|x]; simpl; [|reflexivity].
  intros id. rewrite !kept_iff.
  assert (Hnone :
            dropna (filter (fun r => String.leb s (Date r)
                                     && String.leb (Date r) e) extra) = []).
  { unfold dropna. clear Hperm.
    induction extra as [|r extra IH]; [reflexivity|].
    assert (Hrest : forall r', In r' extra ->
              String.leb s (Date r') && String.leb (Date r') e = false
              \/ complete r' = false).
    { intros r' Hr'. apply Hextra. now right. }
    cbn [filter].
    destruct (Hextra r (or_introl eq_refl)) as [H|H].
    - rewrite H. now apply IH.
    - destruct (String.leb s (Date r) && String.leb (Date r) e);
        [|now apply IH].
      cbn [filter]. unfold complete in H. rewrite H. now apply IH. }
  assert (Hocc :
            occurrences id
              (dropna (filter (fun r => String.leb s (Date r)
                                        && String.leb (Date r) e) t'))
            = occurrences id
                (dropna (filter (fun r => String.leb s (Date r)
                                          && String.leb (Date r) e) t))).
  { rewrite (occurrences_Permutation id
               (t := dropna (filter _ t'))
               (t' := dropna (filter (fun r => String.leb s (Date r)
                                          && String.leb (Date r) e)
                                     (t ++ extra)))).
    - unfold dropna in *. rewrite !filter_app, Hnone, app_nil_r.
      reflexivity.
    - unfold dropna. now do 2 apply filter_Permutation. }
  rewrite Hocc. reflexivity.
Qed.

Lemma common_constituents_ignores_witness :
  match common_constituents six_month_table "2014-01-01" "2014-06-30",
        common_constituents six_month_table_extended
                            "2014-01-01" "2014-06-30"
  with
  | Ok out, Ok out' => forall id : string, In id out <-> In id out'
  | Raise x, Raise x' => x = x'
  | _, _ => False
  end.
Proof.
  apply (@common_constituents_ignores six_month_table
           six_month_table_extended
           [ mkConstituentRow "2014-06-30" (Some "B") [None];
             sample_row 2014 7 31 "B" "Beta plc" ]
           "2014-01-01" "2014-06-30").
  - reflexivity.
  - reflexivity.
  - apply Permutation_refl.
  - intros r [<-|[<-|[]]]; [right | left]; reflexivity.
Defined.

Lemma total_count_bump (k : string) (acc : list (string * nat)) :
  total_count (bump k acc) = S (total_count acc).
Proof.
  induction acc as [|[k0 n] acc IH]; simpl; [reflexivity|].
  destruct (String.eqb k k0); simpl; [reflexivity|]. rewrite IH. lia.
Qed.

Lemma total_count_value_counts (l : list string) :
  total_count (value_counts l) = List.length l.
Proof.
  unfold value_counts.
  assert (H : forall acc,
             total_count (fold_left (fun acc k => bump k acc) l acc)
             = (total_count acc + List.length l)%nat).
  { induction l as [|x l IH]; simpl; intros acc; [lia|].
    rewrite IH, total_count_bump. lia. }
  now rewrite H.
Qed.

Lemma total_count_filter (f : Z) (acc : list (string * nat)) :
  Z.of_nat (List.length (filter (fun p => Z.of_nat (snd p) =? f) acc)) * f
  <= Z.of_nat (total_count acc).
Proof.
  induction acc as [|[k n] acc IH]; [simpl; lia|].
  cbn [filter snd total_count].
  destruct (Z.of_nat n =? f) eqn:E; cbn [List.length].
  - apply Z.eqb_eq in E. rewrite Nat2Z.inj_succ, Nat2Z.inj_add. nia.
  - rewrite Nat2Z.inj_add. lia.
Qed.

Lemma symbol_column_length (rows : list ConstituentRow) :
  (List.length (symbol_column rows) <= List.length rows)%nat.
Proof.
  induction rows as [|r rows IH]; simpl; [lia|].
  destruct (Symbol r); simpl; lia.
Qed.

Lemma filter_twice {A : Type} (p q : A -> bool) (l : list A) :
  filter q (filter p l) = filter (fun x => p x && q x) l.
Proof.
  induction l as [|x l IH]; [reflexivity|]. cbn [filter].
  destruct (p x); cbn [filter andb]; [|exact IH].
  destruct (q x); now rewrite IH.
Qed.

(** On yyyy-mm-dd labels and bounds the window of labels is the window
    of dates. *)
Lemma window_of_dates (lo hi : date) (t : list ConstituentRow) :
  forallb iso_label t = true -> valid_date lo -> valid_date hi ->
  filter (fun r => String.leb (isoformat lo) (Date r)
                   && String.leb (Date r) (isoformat hi)) t
  = filter (in_window lo hi) t.
Proof.
  intros Hiso Hlo Hhi. apply filter_ext_in. intros r Hr.
  rewrite forallb_forall in Hiso.
  destruct (iso_label_date r (Hiso r Hr)) as [d [Hd [Hlabel Hvalid]]].
  unfold in_window. rewrite Hd. rewrite Hlabel at 1 2.
  now rewrite !isoformat_leb.
Qed.

(** X8.  On a table indexed by yyyy-mm-dd dates in ascending order and a
    window of two yyyy-mm-dd dates, each identifier returned accounts for
    [f] rows of its own: the number of identifiers returned times the
    month count [f] is at most the number of rows dated within the window
    that have no missing cell. *)
Theorem common_constituents_bound
  (t : list ConstituentRow) (lo hi : date) (out : list string) (f : Z) :
  date_sorted t = true -> valid_date lo -> valid_date hi ->
  common_constituents t (isoformat lo) (isoformat hi) = Ok out ->
  months_between_date (isoformat lo) (isoformat hi) = Ok f ->
  Z.of_nat (List.length out) * f
  <= Z.of_nat (List.length
                 (filter (fun r => in_window lo hi r && complete r) t)).
Proof.
  intros Hsorted Hlo Hhi Hcc Hf.
  unfold date_sorted in Hsorted. apply andb_true_iff in Hsorted.
  destruct Hsorted as [Hiso Hmono].
  rewrite (common_constituents_sorted _ _ _ Hmono), Hf in Hcc.
  cbn [bind] in Hcc. inversion Hcc; subst out; clear Hcc.
  rewrite length_map.
  eapply Z.le_trans; [apply total_count_filter|].
  rewrite total_count_value_counts.
  apply Nat2Z.inj_le.
  eapply Nat.le_trans; [apply symbol_column_length|].
  unfold dropna. rewrite (window_of_dates t Hiso Hlo Hhi), filter_twice.
  apply Nat.le_refl.
Qed.

Lemma bound_window_valid :
  valid_date (mkdate 2014 1 1) /\ valid_date (mkdate 2014 6 30).
Proof.
  unfold valid_date. cbn [year month day].
  change (days_in_month 2014 1) with 31.
  change (days_in_month 2014 6) with 30. lia.
Qed.

Lemma common_constituents_bound_witness :
  Z.of_nat (List.length ["A"]) * 6
  <= Z.of_nat (List.length
                 (filter (fun r => in_window (mkdate 2014 1 1)
                                             (mkdate 2014 6 30) r
                                   && complete r)
                         six_month_table)).
Proof.
  apply (@common_constituents_bound six_month_table
           (mkdate 2014 1 1) (mkdate 2014 6 30) ["A"] 6).
  - reflexivity.
  - exact (proj1 bound_window_valid).
  - exact (proj2 bound_window_valid).
  - reflexivity.
  - reflexivity.
Defined.

(** ** Symbol resolver *)

Section ResolverFurther.

Variable SearchObj : Type.
Variable symbol : SearchObj -> string.
Variable search_quotes : string -> result SearchObj.

Local Abbreviation resolve :=
  (scrape_constituents_symbols symbol search_quotes).
Local Abbreviation row_of := (resolved_row symbol search_quotes).

Lemma scrape_constituents_symbols_eq (constituents : list MembershipRecord) :
  resolve constituents
  = (map row_of (map mr_Company (drop_duplicates mr_Company constituents)),
     filter (lookup_fails search_quotes)
            (map mr_Company (drop_duplicates mr_Company constituents))).
Proof.
  unfold scrape_constituents_symbols. now rewrite resolve_loop.
Qed.

Lemma mapping_companies (constituents : list MembershipRecord) :
  map sm_Company (fst (resolve constituents))
  = map mr_Company (drop_duplicates mr_Company constituents).
Proof.
  rewrite scrape_constituents_symbols_eq. simpl. rewrite map_map.
  rewrite <- (map_id (map mr_Company _)) at 2.
  apply map_ext. apply resolved_row_company.
Qed.

(** X9.  Whatever the table, duplicates included, the mapping table has
    exactly one row per distinct company of the table: its companies are
    those of the table, none twice. *)
Theorem scrape_constituents_symbols_one_row_per_company
  (constituents : list MembershipRecord) :
  NoDup (map sm_Company (fst (resolve constituents)))
  /\ forall c : string,
      In c (map sm_Company (fst (resolve constituents)))
      <-> In c (map mr_Company constituents).
Proof.
  rewrite mapping_companies.
  destruct (drop_duplicates_from_keys mr_Company [] constituents)
    as [Hnd [Hkeys _]].
  split; [exact Hnd|].
  intros c. unfold drop_duplicates. rewrite Hkeys. simpl. tauto.
Qed.

(** X10.  The error list holds exactly the companies of the table whose
    lookup fails, none twice; each of them has the row with the empty
    symbol in the mapping table; and the list is empty exactly when every
    company of the table is found. *)
Theorem scrape_constituents_symbols_errors
  (constituents : list MembershipRecord) :
  let out := resolve constituents in
  (forall c : string,
      In c (snd out)
      <-> In c (map mr_Company constituents)
          /\ lookup_fails search_quotes c = true)
  /\ NoDup (snd out)
  /\ (forall c : string,
         In c (snd out) -> In (mkSymbolMapping c "") (fst out))
  /\ (snd out = []
      <-> forall c, In c (map mr_Company constituents) ->
                    lookup_fails search_quotes c = false).
Proof.
  intros out. unfold out. rewrite scrape_constituents_symbols_eq. simpl.
  destruct (drop_duplicates_from_keys mr_Company [] constituents)
    as [Hnd [Hkeys _]].
  fold (drop_duplicates mr_Company constituents) in Hnd, Hkeys.
  assert (Hmem : forall c,
             In c (filter (lookup_fails search_quotes)
                          (map mr_Company
                               (drop_duplicates mr_Company constituents)))
             <-> In c (map mr_Company constituents)
                 /\ lookup_fails search_quotes c = true).
  { intros c. rewrite filter_In, Hkeys. simpl. tauto. }
  split; [exact Hmem|]. split; [|split].
  - clear Hmem. revert Hnd.
    generalize (map mr_Company (drop_duplicates mr_Company constituents)).
    intros l Hl. induction Hl as [|x l Hx Hl IH]; simpl; [constructor|].
    destruct (lookup_fails search_quotes x); [|exact IH].
    constructor; [|exact IH]. rewrite filter_In. tauto.
  - intros c Hc. apply filter_In in Hc. destruct Hc as [Hc Hfail].
    apply in_map_iff. exists c. split; [|exact Hc].
    unfold resolved_row, lookup_fails in *.
    destruct (search_quotes c); [discriminate|reflexivity].
  - split.
    + intros Hnil c Hc.
      destruct (lookup_fails search_quotes c) eqn:E; [|reflexivity].
      exfalso. assert (Hin := proj2 (Hmem c) (conj Hc E)).
      rewrite Hnil in Hin. exact Hin.
    + intros Hall.
      destruct (filter (lookup_fails search_quotes)
                       (map mr_Company
                            (drop_duplicates mr_Company constituents)))
        as [|c l] eqn:E; [reflexivity|].
      exfalso. destruct (proj1 (Hmem c) (or_introl eq_refl)) as [Hc Hf].
      rewrite (Hall c Hc) in Hf. discriminate.
Qed.

End ResolverFurther.

(** ** Constituent-symbol matcher *)

(** X11.  On a table whose number of rows is a multiple of 100 nothing is
    lost: the batched loop returns the single inner join of the whole
    table with the mapping table. *)
Theorem match_company_symbol_multiple_of_100
  (constituents : list MembershipRecord) (symbols : list SymbolMapping) :
  (List.length constituents mod 100 = 0)%nat ->
  match_company_symbol constituents symbols = merge constituents symbols.
Proof.
  intros Hmod. rewrite <- (app_nil_r constituents) at 1.
  apply match_company_symbol_tail; [exact Hmod | simpl; lia].
Qed.

Lemma match_company_symbol_multiple_of_100_witness :
  match_company_symbol (hundred_rows ++ hundred_rows)
                       [mkSymbolMapping "Alpha plc" "AAA"]
  = merge (hundred_rows ++ hundred_rows) [mkSymbolMapping "Alpha plc" "AAA"].
Proof.
  apply match_company_symbol_multiple_of_100. reflexivity.
Defined.

(** X12.  Rows added at the end of the membership table never remove or
    change output rows: the output on the shorter table is a prefix of the
    output on the longer one. *)
Theorem match_company_symbol_monotone
  (constituents more : list MembershipRecord) (symbols : list SymbolMapping) :
  exists added : list MatchedConstituent,
    match_company_symbol (constituents ++ more) symbols
    = match_company_symbol constituents symbols ++ added.
Proof.
  rewrite !match_company_symbol_prefix, length_app.
  set (k := (100 * (List.length constituents / 100))%nat).
  set (K := (100 * ((List.length constituents + List.length more) / 100))%nat).
  assert (Hk : (k <= List.length constituents)%nat).
  { unfold k. apply Nat.Div0.mul_div_le. }
  assert (HkK : (k <= K)%nat).
  { unfold k, K. apply Nat.mul_le_mono_l. apply Nat.Div0.div_le_mono. lia. }
  exists (merge (skipn k (firstn K (constituents ++ more))) symbols).
  rewrite <- merge_app. f_equal.
  rewrite <- (firstn_skipn k (firstn K (constituents ++ more))) at 1.
  f_equal. rewrite firstn_firstn, (Nat.min_l _ _ HkK), firstn_app.
  replace (k - List.length constituents)%nat with O by lia.
  simpl. now rewrite app_nil_r.
Qed.

Lemma company_rows_at_most_one (c : string) (symbols : list SymbolMapping) :
  NoDup (map sm_Company symbols) ->
  (List.length (filter (fun r => String.eqb c (sm_Company r)) symbols) <= 1)%nat.
Proof.
  induction symbols as [|r symbols IH]; simpl; intros Hnd; [lia|].
  inversion Hnd as [|? ? Hnotin Hnd']; subst.
  destruct (String.eqb c (sm_Company r)) eqn:E; [|now apply IH].
  apply String.eqb_eq in E. subst c. simpl.
  replace (filter (fun r0 => String.eqb (sm_Company r) (sm_Company r0)) symbols)
    with (@nil SymbolMapping); [simpl; lia|].
  symmetry. clear IH Hnd Hnd'.
  induction symbols as [|r' symbols IH]; simpl; [reflexivity|].
  destruct (String.eqb (sm_Company r) (sm_Company r')) eqn:E'.
  - apply String.eqb_eq in E'. exfalso. apply Hnotin. simpl. now left.
  - apply IH. intros H. apply Hnotin. simpl. now right.
Qed.

Lemma merge_length (left : list MembershipRecord)
  (symbols : list SymbolMapping) :
  NoDup (map sm_Company symbols) ->
  (List.length (merge left symbols) <= List.length left)%nat.
Proof.
  intros Hnd. unfold merge.
  induction left as [|m left IH]; simpl; [lia|].
  rewrite length_app, length_map.
  pose proof (@company_rows_at_most_one (mr_Company m) symbols Hnd). lia.
Qed.

(** X13.  With a mapping table that has no company twice (as the resolver
    builds it), every membership row gives at most one output row: the
    output has at most [100 * floor(n / 100)] rows, hence never more than
    the membership table. *)
Theorem match_company_symbol_length
  (constituents : list MembershipRecord) (symbols : list SymbolMapping) :
  NoDup (map sm_Company symbols) ->
  (List.length (match_company_symbol constituents symbols)
   <= 100 * (List.length constituents / 100)
   <= List.length constituents)%nat.
Proof.
  intros Hnd. rewrite match_company_symbol_prefix.
  pose proof (Nat.Div0.mul_div_le (List.length constituents) 100) as Hle.
  split; [|exact Hle].
  eapply Nat.le_trans; [apply merge_length; exact Hnd|].
  rewrite length_firstn. lia.
Qed.

Lemma match_company_symbol_length_witness :
  (List.length (match_company_symbol (hundred_rows ++ four_companies)
                  [mkSymbolMapping "Alpha plc" "AAA";
                   mkSymbolMapping "Beta plc" ""])
   <= 100 * (List.length (hundred_rows ++ four_companies) / 100)
   <= List.length (hundred_rows ++ four_companies))%nat.
Proof.
  apply match_company_symbol_length.
  simpl. repeat constructor; simpl; intuition discriminate.
Defined.

(** ** Resolver and matcher together *)

Section ResolveThenMatch.

Variable SearchObj : Type.
Variable symbol : SearchObj -> string.
Variable search_quotes : string -> result SearchObj.

Local Abbreviation resolve :=
  (scrape_constituents_symbols symbol search_quotes).
Local Abbreviation row_of := (resolved_row symbol search_quotes).

(** The output row of a membership row: its date and company with the
    symbol the resolver recorded for the company. *)
Local Abbreviation matched :=
  (fun m : MembershipRecord =>
     mkMatchedConstituent (mr_Date m) (mr_Company m)
                          (sm_Symbol (row_of (mr_Company m)))).

Lemma resolved_rows_absent (c : string) (companies : list string) :
  ~ In c companies ->
  filter (fun r => String.eqb c (sm_Company r)) (map row_of companies) = [].
Proof.
  induction companies as [|x l IH]; simpl; intros Hc; [reflexivity|].
  rewrite resolved_row_company.
  destruct (String.eqb c x) eqn:E.
  - apply String.eqb_eq in E. exfalso. auto.
  - apply IH. auto.
Qed.

Lemma resolved_rows_present (c : string) (companies : list string) :
  NoDup companies -> In c companies ->
  filter (fun r => String.eqb c (sm_Company r)) (map row_of companies)
  = [row_of c].
Proof.
  induction companies as [|x l IH]; simpl; intros Hnd Hc; [easy|].
  inversion Hnd as [|? ? Hx Hnd']; subst.
  rewrite resolved_row_company.
  destruct (String.eqb c x) eqn:E.
  - apply String.eqb_eq in E. subst x. f_equal.
    now apply resolved_rows_absent.
  - destruct Hc as [->|Hc]; [rewrite String.eqb_refl in E; discriminate|].
    now apply IH.
Qed.

Lemma merge_resolved (left : list MembershipRecord) (companies : list string) :
  NoDup companies ->
  (forall m, In m left -> In (mr_Company m) companies) ->
  merge left (map row_of companies) = map matched left.
Proof.
  intros Hnd. unfold merge.
  induction left as [|m left IH]; simpl; intros Hin; [reflexivity|].
  rewrite resolved_rows_present by auto. simpl. f_equal. apply IH. auto.
Qed.

Lemma match_resolved (constituents : list MembershipRecord) :
  match_company_symbol constituents (fst (resolve constituents))
  = map matched
        (firstn (100 * (List.length constituents / 100)) constituents).
Proof.
  rewrite match_company_symbol_prefix.
  unfold scrape_constituents_symbols. rewrite resolve_loop. simpl.
  destruct (drop_duplicates_from_keys mr_Company [] constituents)
    as [Hnd [Hkeys _]].
  apply merge_resolved; [exact Hnd|].
  intros m Hm. apply In_firstn_In in Hm.
  unfold drop_duplicates. apply Hkeys. split; [now apply in_map | tauto].
Qed.

(** X14.  Matching a table against the mapping the resolver built from
    that same table keeps every row of the full batches exactly once: the
    output is, up to order, the first [100 * floor(n / 100)] membership
    rows, each with the symbol the lookup of its company gave, or the
    empty symbol when the lookup failed. *)
Theorem match_after_resolve (constituents : list MembershipRecord) :
  let out := match_company_symbol constituents (fst (resolve constituents)) in
  Permutation out
    (map matched
         (firstn (100 * (List.length constituents / 100)) constituents))
  /\ List.length out = (100 * (List.length constituents / 100))%nat.
Proof.
  intros out. unfold out. rewrite match_resolved. split.
  - apply Permutation_refl.
  - rewrite length_map, length_firstn.
    pose proof (Nat.Div0.mul_div_le (List.length constituents) 100). lia.
Qed.

End ResolveThenMatch.

(** ** Returns aggregator, without assumptions on the frames *)

Section MergeOuterFurther.

Variable V : Type.

Lemma join_left_row_shape (h : list (date * V))
  (r r' : date * list (option V)) :
  In r' (join_left_row h r) ->
  fst r' = fst r /\ List.length (snd r') = S (List.length (snd r)).
Proof.
  unfold join_left_row.
  destruct (matching (fst r) h) as [|p ms].
  - intros [<-|[]]. simpl. rewrite length_app. simpl. split; [reflexivity|lia].
  - intros Hin. apply in_map_iff in Hin. destruct Hin as [q [<- _]]. simpl.
    rewrite length_app. simpl. split; [reflexivity|lia].
Qed.

Lemma join_left_row_nonempty (h : list (date * V))
  (r : date * list (option V)) :
  exists r', In r' (join_left_row h r).
Proof.
  unfold join_left_row.
  destruct (matching (fst r) h) as [|p ms]; eexists; simpl; left; reflexivity.
Qed.

(** An outer join keeps the table rectangular. *)
Lemma outer_join_rectangular (t : Wide V) (name : string)
  (h : list (date * V)) :
  (forall r, In r (rows t) -> List.length (snd r) = List.length (columns t)) ->
  forall r, In r (rows (outer_join t name h)) ->
            List.length (snd r) = List.length (columns (outer_join t name h)).
Proof.
  intros Hrect r. unfold outer_join. simpl.
  rewrite length_app, in_app_iff, in_flat_map, right_only_In. simpl.
  intros [[r0 [Hr0 Hr]]|[p [_ [_ ->]]]].
  - apply join_left_row_shape in Hr. destruct Hr as [_ ->].
    rewrite (Hrect _ Hr0). lia.
  - simpl. rewrite length_app, repeat_length. reflexivity.
Qed.

(** The dates of an outer join are the dates of either side. *)
Lemma outer_join_dates_union (t : Wide V) (name : string)
  (h : list (date * V)) (d : date) :
  In d (dates (outer_join t name h)) <-> In d (dates t) \/ In d (map fst h).
Proof.
  unfold dates, outer_join. simpl.
  rewrite map_app, in_app_iff, !in_map_iff. split.
  - intros [[r' [<- Hr']]|[r' [<- Hr']]].
    + apply in_flat_map in Hr'. destruct Hr' as [r [Hr Hin]].
      apply join_left_row_shape in Hin. destruct Hin as [-> _].
      left. exists r. auto.
    + apply right_only_In in Hr'. destruct Hr' as [p [Hp [_ ->]]].
      right. exists p. auto.
  - intros Hd.
    destruct (in_dec date_eq_dec d (map fst (rows t))) as [Hin|Hout].
    + left. apply in_map_iff in Hin. destruct Hin as [r [<- Hr]].
      destruct (join_left_row_nonempty h r) as [r' Hr'].
      exists r'. split.
      * now apply join_left_row_shape in Hr'.
      * apply in_flat_map. exists r. auto.
    + destruct Hd as [[r [<- Hr]]|[p [<- Hp]]].
      * exfalso. apply Hout. now apply in_map.
      * right. exists (fst p, repeat None (List.length (columns t))
                                ++ [Some (snd p)]).
        split; [reflexivity|]. apply right_only_In. exists p. auto.
Qed.

End MergeOuterFurther.

Section AggregatorFurther.

Variable SearchObj : Type.
Variable search_quotes : string -> result SearchObj.
Variable V : Type.
Variable retrieve_historical_data :
  SearchObj -> string -> string -> result (list (date * V)).
Variables start_date end_date : string.

Local Abbreviation fetch' s :=
  (fetch search_quotes retrieve_historical_data s start_date end_date).
Local Abbreviation step :=
  (aggregate_one search_quotes retrieve_historical_data start_date end_date).
Local Abbreviation run constituents :=
  (scrape_daily_returns search_quotes retrieve_historical_data
                        constituents start_date end_date).
Local Abbreviation symbols_of constituents :=
  (map mc_Symbol (drop_duplicates mc_Symbol constituents)).

Lemma symbols_of_cons (row : MatchedConstituent)
  (rest : list MatchedConstituent) :
  exists others, symbols_of (row :: rest) = mc_Symbol row :: others.
Proof. unfold drop_duplicates. simpl. eexists. reflexivity. Qed.

(** What a successful run is: a first symbol whose fetch succeeded, then
    the loop over the other symbols. *)
Lemma run_ok_inv (constituents : list MatchedConstituent) (t : Wide V) :
  run constituents = Ok t ->
  exists first others h0,
    symbols_of constituents = first :: others
    /\ fetch' first = Ok h0
    /\ t = fold_left step others (seed first h0).
Proof.
  unfold scrape_daily_returns.
  destruct (map mc_Symbol (drop_duplicates mc_Symbol constituents))
    as [|first others]; [discriminate|].
  destruct (fetch search_quotes retrieve_historical_data first
                  start_date end_date) as [h0|e] eqn:E; simpl; [|discriminate].
  intros H. inversion H. exists first, others, h0. auto.
Qed.

(** What one round of the loop does: it leaves the table as it is, or
    (the fetch succeeded, the table has no ["Date"] column and the symbol
    is not called ["Date"]) joins the frame. *)
Lemma step_cases (t : Wide V) (s : string) :
  step t s = t
  \/ exists h, fetch' s = Ok h /\ ~ In "Date" (columns t) /\ s <> "Date"
               /\ step t s = outer_join t s h.
Proof.
  unfold aggregate_one, merge_outer.
  destruct (fetch search_quotes retrieve_historical_data s
                  start_date end_date) as [h|x]; cbn [bind]; [|now left].
  destruct (existsb (String.eqb "Date") (columns t)) eqn:E;
    cbn [orb]; [now left|].
  destruct (String.eqb "Date" s) eqn:E'; [now left|].
  right. exists h. split; [reflexivity|]. split; [|split; [|reflexivity]].
  - intros Hin. apply existsb_eqb_In in Hin. congruence.
  - apply String.eqb_neq in E'. congruence.
Qed.

Lemma loop_columns (others : list string) (t : Wide V) :
  ~ In "Date" (columns t) ->
  columns (fold_left step others t)
  = columns t
    ++ filter (fun s => is_ok (fetch' s) && negb (String.eqb "Date" s)) others.
Proof.
  revert t. induction others as [|s others IH]; intros t Hcols.
  - cbn [fold_left filter]. now rewrite app_nil_r.
  - cbn [fold_left filter].
    destruct (fetch search_quotes retrieve_historical_data s
                    start_date end_date) as [h|x] eqn:E.
    + cbn [is_ok andb]. destruct (String.eqb "Date" s) eqn:E'; cbn [negb].
      * apply String.eqb_eq in E'. subst s.
        rewrite (step_named_date search_quotes retrieve_historical_data
                                 start_date end_date t).
        now apply IH.
      * apply String.eqb_neq in E'.
        rewrite (@step_merged _ search_quotes _ retrieve_historical_data
                   start_date end_date t s h E Hcols) by congruence.
        rewrite IH.
        -- cbn [outer_join columns]. now rewrite <- app_assoc.
        -- cbn [outer_join columns]. rewrite in_app_iff. simpl.
           intuition congruence.
    + cbn [is_ok andb].
      rewrite (@step_failed _ search_quotes _ retrieve_historical_data
                 start_date end_date t s x E).
      now apply IH.
Qed.

Lemma loop_rectangular (others : list string) (t : Wide V) :
  (forall r, In r (rows t) -> List.length (snd r) = List.length (columns t)) ->
  forall r, In r (rows (fold_left step others t)) ->
            List.length (snd r)
            = List.length (columns (fold_left step others t)).
Proof.
  revert t. induction others as [|s others IH]; intros t Hrect;
    cbn [fold_left]; [exact Hrect|].
  apply IH.
  destruct (step_cases t s) as [->|[h [_ [_ [_ ->]]]]]; [exact Hrect|].
  now apply outer_join_rectangular.
Qed.

Lemma loop_dates (others : list string) (t : Wide V) :
  (forall d, In d (dates t)
             <-> exists s h, In s (columns t) /\ fetch' s = Ok h
                             /\ In d (map fst h)) ->
  forall d, In d (dates (fold_left step others t))
            <-> exists s h, In s (columns (fold_left step others t))
                            /\ fetch' s = Ok h /\ In d (map fst h).
Proof.
  revert t. induction others as [|s others IH]; intros t Ht;
    cbn [fold_left]; [exact Ht|].
  apply IH.
  destruct (step_cases t s) as [->|[h [Hf [_ [_ ->]]]]]; [exact Ht|].
  intros d. rewrite outer_join_dates_union, Ht.
  cbn [outer_join columns]. split.
  - intros [[s' [h' [Hs' [Hf' Hd]]]]|Hd].
    + exists s', h'. rewrite in_app_iff. auto.
    + exists s, h. rewrite in_app_iff. simpl. auto.
  - intros [s' [h' [Hs' [Hf' Hd]]]]. apply in_app_iff in Hs'.
    destruct Hs' as [Hs'|[<-|[]]].
    + left. exists s', h'. auto.
    + right. congruence.
Qed.

(** X15.  When the aggregator raises: on an empty table it raises
    [IndexError]; on a table with a first row it raises exactly when the
    search or the history fetch of the first row's symbol raises, with
    that exception, and returns a table otherwise, whatever the later
    fetches do. *)
Theorem scrape_daily_returns_raises :
  run [] = Raise IndexError
  /\ forall (row : MatchedConstituent) (rest : list MatchedConstituent),
      match fetch' (mc_Symbol row) with
      | Raise e => run (row :: rest) = Raise e
      | Ok _ => exists t, run (row :: rest) = Ok t
      end.
Proof.
  split; [reflexivity|]. intros row rest.
  destruct (symbols_of_cons row rest) as [others Hsym].
  unfold scrape_daily_returns. rewrite Hsym.
  destruct (fetch search_quotes retrieve_historical_data (mc_Symbol row)
                  start_date end_date) as [h|e]; simpl.
  - eexists. reflexivity.
  - reflexivity.
Qed.

Lemma run_columns
  (constituents : list MatchedConstituent) (t : Wide V) :
  run constituents = Ok t ->
  exists (first : string) (others : list string),
    symbols_of constituents = first :: others
    /\ columns t
       = first
         :: (if String.eqb "Date" first then []
             else filter (fun s => is_ok (fetch' s)
                                   && negb (String.eqb "Date" s)) others)
    /\ NoDup (columns t).
Proof.
  intros Hrun.
  destruct (run_ok_inv _ Hrun) as [first [others [h0 [Hsym [Hf ->]]]]].
  exists first, others. split; [exact Hsym|].
  assert (Hcols : columns (fold_left step others (seed first h0))
                  = first
                    :: (if String.eqb "Date" first then []
                        else filter (fun s => is_ok (fetch' s)
                                              && negb (String.eqb "Date" s))
                                    others)).
  { destruct (String.eqb "Date" first) eqn:E.
    - apply String.eqb_eq in E. subst first.
      rewrite (loop_date_column search_quotes retrieve_historical_data
                 start_date end_date others (seed "Date" h0));
        [reflexivity | simpl; now left].
    - apply String.eqb_neq in E. rewrite loop_columns; [reflexivity|].
      simpl. intuition congruence. }
  split; [exact Hcols|]. rewrite Hcols.
  pose proof (symbols_distinct constituents) as Hnd. rewrite Hsym in Hnd.
  inversion Hnd as [|? ? Hnotin Hnd']; subst.
  constructor.
  - destruct (String.eqb "Date" first); [intros []|].
    rewrite filter_In. tauto.
  - destruct (String.eqb "Date" first); [constructor|].
    clear - Hnd'. induction Hnd' as [|x l Hx Hl IH]; cbn [filter];
      [constructor|].
    destruct (is_ok (fetch search_quotes retrieve_historical_data x
                           start_date end_date)
              && negb (String.eqb "Date" x)); [|exact IH].
    constructor; [|exact IH]. rewrite filter_In. tauto.
Qed.

(** X16.  The value columns of a returned table: the first symbol of the
    input, followed (unless the first symbol is called ["Date"], in which
    case nothing is merged after it) by the later distinct symbols, in
    order of first appearance, whose fetch succeeded and that are not
    called ["Date"].  A symbol whose fetch failed has no column, and no
    symbol has two. *)
Theorem scrape_daily_returns_columns
  (constituents : list MatchedConstituent) (t : Wide V) :
  run constituents = Ok t ->
  exists (first : string) (others : list string),
    symbols_of constituents = first :: others
    /\ columns t
       = first
         :: (if String.eqb "Date" first then []
             else filter (fun s => is_ok (fetch' s)
                                   && negb (String.eqb "Date" s)) others)
    /\ NoDup (columns t).
Proof. exact (@run_columns constituents t). Qed.

(** X17.  A returned table is rectangular: every row has one cell per
    column, present or absent, also when frames repeat a date. *)
Theorem scrape_daily_returns_rectangular
  (constituents : list MatchedConstituent) (t : Wide V) :
  run constituents = Ok t ->
  forall r, In r (rows t) -> List.length (snd r) = List.length (columns t).
Proof.
  intros Hrun. destruct (run_ok_inv _ Hrun) as [first [others [h0 [_ [_ ->]]]]].
  apply loop_rectangular. simpl. intros r Hr.
  apply in_map_iff in Hr. destruct Hr as [p [<- _]]. reflexivity.
Qed.

(** X18.  The dates of a returned table are exactly the dates of the
    series of the symbols that have a column: no date of a merged series
    is lost and no other date appears, also when series repeat a date or
    later symbols are skipped. *)
Theorem scrape_daily_returns_dates
  (constituents : list MatchedConstituent) (t : Wide V) :
  run constituents = Ok t ->
  forall d : date,
    In d (dates t)
    <-> exists s h, In s (columns t) /\ fetch' s = Ok h
                    /\ In d (map fst h).
Proof.
  intros Hrun.
  destruct (run_ok_inv _ Hrun) as [first [others [h0 [Hsym [Hf ->]]]]].
  apply loop_dates. intros d.
  assert (Hseed : dates (seed first h0) = map fst h0).
  { unfold dates, seed. simpl. now rewrite map_map. }
  rewrite Hseed. cbn [seed columns]. split.
  - intros H. exists first, h0. simpl. auto.
  - intros [s [h [[<-|[]] [Hfs Hd]]]]. congruence.
Qed.

(** X19.  Skipped symbols do not disturb the merged ones: when every
    fetched series has one row per date, a returned table has at most one
    row per date and, for each symbol that has a column, the symbol's
    value on each of its own dates and an absent value on every other
    date. *)
Theorem scrape_daily_returns_values
  (constituents : list MatchedConstituent) (t : Wide V) :
  run constituents = Ok t ->
  (forall s h, In s (symbols_of constituents) -> fetch' s = Ok h ->
               NoDup (map fst h)) ->
  NoDup (dates t)
  /\ forall s h, In s (columns t) -> fetch' s = Ok h ->
       (forall d v, In (d, v) h -> value_at t d s = Some v)
       /\ (forall d, ~ In d (map fst h) -> value_at t d s = None).
Proof.
  intros Hrun Hnd.
  destruct (@run_columns _ _ Hrun) as [first' [others' [_ [_ Hcolsnd]]]].
  destruct (run_ok_inv _ Hrun) as [first [others [h0 [Hsym [Hf Ht]]]]].
  rewrite Hsym in Hnd.
  destruct (scrape_daily_returns_table search_quotes retrieve_historical_data
              start_date end_date constituents Hsym Hf Hnd)
    as [t' [Hrun' Hinv]].
  rewrite Hrun in Hrun'. inversion Hrun'; subst t'. clear Hrun'.
  set (done := (first, h0)
               :: (if String.eqb "Date" first then []
                   else fetched search_quotes retrieve_historical_data
                                start_date end_date others)) in *.
  rewrite (inv_columns Hinv) in Hcolsnd.
  assert (Hdone : forall s h', In (s, h') done -> fetch' s = Ok h').
  { intros s h' [H|H].
    - inversion H; subst. exact Hf.
    - destruct (String.eqb "Date" first); [contradiction|].
      apply fetched_In in H. tauto. }
  split; [exact (inv_nodup Hinv)|].
  rewrite (inv_columns Hinv). intros s h Hs Hfs.
  apply in_map_iff in Hs. destruct Hs as [[s' h'] [Hs' Hin]].
  simpl in Hs'. subst s'.
  assert (h' = h) by (apply Hdone in Hin; congruence). subst h'.
  assert (Hh : NoDup (map fst h)).
  { apply (Hnd s h); [|exact Hfs].
    assert (Hcol : In s (map fst done)).
    { change s with (fst (s, h)). now apply in_map. }
    destruct Hin as [H|H].
    - inversion H. now left.
    - destruct (String.eqb "Date" first); [contradiction|].
      apply fetched_In in H. right. tauto. }
  split.
  - intros d v Hv.
    assert (Hd : In d (dates t)).
    { apply (inv_dates Hinv). exists (s, h). split; [exact Hin|].
      simpl. change d with (fst (d, v)). now apply in_map. }
    rewrite (@value_at_inv _ _ _ _ _ _ Hinv Hcolsnd Hin Hd).
    now apply (@series_at_present _ h (d, v)).
  - intros d Hout.
    destruct (in_dec date_eq_dec d (dates t)) as [Hd|Hd].
    + rewrite (@value_at_inv _ _ _ _ _ _ Hinv Hcolsnd Hin Hd).
      now apply series_at_absent.
    + now apply value_at_no_row.
Qed.

End AggregatorFurther.

Lemma scrape_daily_returns_columns_witness :
  exists (first : string) (others : list string),
    map mc_Symbol (drop_duplicates mc_Symbol matched_XD) = first :: others
    /\ columns (mkWide ["XXX"] [ (mkdate 2014 1 1, [Some 10]);
                                 (mkdate 2014 1 2, [Some (-20)]);
                                 (mkdate 2014 1 3, [Some 30]) ])
       = first
         :: (if String.eqb "Date" first then []
             else filter (fun s =>
                            is_ok (fetch date_quotes date_history s
                                         "01/01/2014" "31/01/2014")
                            && negb (String.eqb "Date" s)) others)
    /\ NoDup (columns (mkWide ["XXX"] [ (mkdate 2014 1 1, [Some 10]);
                                        (mkdate 2014 1 2, [Some (-20)]);
                                        (mkdate 2014 1 3, [Some 30]) ])).
Proof.
  apply (@scrape_daily_returns_columns string date_quotes Z date_history
           "01/01/2014" "31/01/2014" matched_XD).
  reflexivity.
Defined.

Lemma scrape_daily_returns_rectangular_witness :
  List.length (snd (mkdate 2014 1 4, [@None Z; Some 45]))
  = List.length
      (columns (mkWide ["XXX"; "YYY"]
                  [ (mkdate 2014 1 1, [Some 10; None]);
                    (mkdate 2014 1 2, [Some (-20); Some 25]);
                    (mkdate 2014 1 3, [Some 30; Some (-35)]);
                    (mkdate 2014 1 4, [None; Some 45]) ])).
Proof.
  apply (@scrape_daily_returns_rectangular string sample_quotes Z
           sample_history "01/01/2014" "31/01/2014" matched_XY).
  - reflexivity.
  - simpl. do 3 right. left. reflexivity.
Defined.

Lemma scrape_daily_returns_dates_witness :
  In (mkdate 2014 1 2)
     (dates (mkWide ["XXX"] [ (mkdate 2014 1 1, [Some 10]);
                              (mkdate 2014 1 2, [Some (-20)]);
                              (mkdate 2014 1 3, [Some 30]) ]))
  <-> exists s h,
      In s (columns (mkWide ["XXX"] [ (mkdate 2014 1 1, [Some 10]);
                                      (mkdate 2014 1 2, [Some (-20)]);
                                      (mkdate 2014 1 3, [Some 30]) ]))
      /\ fetch date_quotes date_history s "01/01/2014" "31/01/2014" = Ok h
      /\ In (mkdate 2014 1 2) (map fst h).
Proof.
  apply (@scrape_daily_returns_dates string date_quotes Z date_history
           "01/01/2014" "31/01/2014" matched_XD).
  reflexivity.
Defined.

Lemma sample_frames_distinct (s : string) (h : list (date * Z)) :
  In s (map mc_Symbol (drop_duplicates mc_Symbol matched_XZ)) ->
  fetch sample_quotes sample_history s "01/01/2014" "31/01/2014" = Ok h ->
  NoDup (map fst h).
Proof.
  simpl. intros [<-|[<-|[]]] H; vm_compute in H; [|discriminate].
  inversion H; subst h. simpl.
  repeat constructor; simpl; intuition congruence.
Qed.

Lemma scrape_daily_returns_values_witness :
  let t := mkWide ["XXX"] [ (mkdate 2014 1 1, [Some 10]);
                            (mkdate 2014 1 2, [Some (-20)]);
                            (mkdate 2014 1 3, [Some 30]) ] in
  NoDup (dates t)
  /\ forall s h,
      In s (columns t) ->
      fetch sample_quotes sample_history s "01/01/2014" "31/01/2014" = Ok h ->
      (forall d v, In (d, v) h -> value_at t d s = Some v)
      /\ (forall d, ~ In d (map fst h) -> value_at t d s = None).
Proof.
  apply (@scrape_daily_returns_values string sample_quotes Z sample_history
           "01/01/2014" "31/01/2014" matched_XZ).
  - reflexivity.
  - exact sample_frames_distinct.
Defined.

(** ** The run *)

Section MainProperties.

Variable SearchObj : Type.
Variable symbol : SearchObj -> string.
Variable search_quotes : string -> result SearchObj.
Variable V : Type.
Variable retrieve_historical_data :
  SearchObj -> string -> string -> result (list (date * V)).

Local Abbreviation run_main constituents :=
  (main symbol search_quotes retrieve_historical_data constituents).
Local Abbreviation row_of := (resolved_row symbol search_quotes).

(** The run on a table with at least one full batch: the aggregator is
    given the rows of the full batches, the first of them first. *)
Lemma main_first_symbol (first : MembershipRecord)
  (rest : list MembershipRecord) :
  (100 <= List.length (first :: rest))%nat ->
  exists later : list MatchedConstituent,
    run_main (first :: rest)
    = scrape_daily_returns search_quotes retrieve_historical_data
        (mkMatchedConstituent (mr_Date first) (mr_Company first)
                              (sm_Symbol (row_of (mr_Company first)))
         :: later)
        "01/01/2014" "01/07/2021".
Proof.
  intros Hlen. unfold main.
  pose proof (match_resolved symbol search_quotes (first :: rest)) as Hm.
  destruct (scrape_constituents_symbols symbol search_quotes (first :: rest))
    as [symbols errors].
  simpl fst in Hm. rewrite Hm.
  assert (HK : exists k, (100 * (List.length (first :: rest) / 100) = S k)%nat).
  { assert (1 <= List.length (first :: rest) / 100)%nat
      by (apply Nat.div_le_lower_bound; lia).
    exists (100 * (List.length (first :: rest) / 100) - 1)%nat. lia. }
  destruct HK as [k ->]. cbn [firstn map].
  eexists. reflexivity.
Qed.

(** X20.  On a membership table of fewer than 100 rows the run produces
    no table: the matcher's output is empty and the aggregator raises
    [IndexError], whatever the service answers. *)
Theorem main_short_table (constituents : list MembershipRecord) :
  (List.length constituents < 100)%nat ->
  run_main constituents = Raise IndexError.
Proof.
  intros Hlt. unfold main.
  destruct (scrape_constituents_symbols symbol search_quotes constituents)
    as [symbols errors].
  rewrite (match_company_symbol_short _ _ Hlt). reflexivity.
Qed.

(** X21.  On a table of at least 100 rows, whether the run returns a
    table is decided by the first row alone: it raises exactly when the
    fetch of the symbol recorded for the first row's company raises, with
    that exception. *)
Theorem main_first_row (first : MembershipRecord)
  (rest : list MembershipRecord) :
  (100 <= List.length (first :: rest))%nat ->
  match fetch search_quotes retrieve_historical_data
              (sm_Symbol (row_of (mr_Company first)))
              "01/01/2014" "01/07/2021" with
  | Raise e => run_main (first :: rest) = Raise e
  | Ok _ => exists t, run_main (first :: rest) = Ok t
  end.
Proof.
  intros Hlen. destruct (@main_first_symbol first rest Hlen) as [later ->].
  unfold scrape_daily_returns, drop_duplicates.
  cbn [drop_duplicates_from existsb map mc_Symbol].
  destruct (fetch search_quotes retrieve_historical_data
                  (sm_Symbol (row_of (mr_Company first)))
                  "01/01/2014" "01/07/2021") as [h|e]; simpl.
  - eexists. reflexivity.
  - reflexivity.
Qed.

(** X22.  When the lookup of the first row's company fails and the
    service also rejects the empty search text, the run on a table of at
    least 100 rows raises: the empty symbol recorded for that company is
    the first symbol the aggregator fetches, outside its [try]. *)
Theorem main_first_company_unresolved (first : MembershipRecord)
  (rest : list MembershipRecord) (e : exn) :
  (100 <= List.length (first :: rest))%nat ->
  lookup_fails search_quotes (mr_Company first) = true ->
  search_quotes "" = Raise e ->
  run_main (first :: rest) = Raise e.
Proof.
  intros Hlen Hfail Hempty.
  destruct (@main_first_symbol first rest Hlen) as [later ->].
  assert (Hsym : sm_Symbol (row_of (mr_Company first)) = "").
  { unfold resolved_row, lookup_fails in *.
    destruct (search_quotes (mr_Company first)); [discriminate|reflexivity]. }
  rewrite Hsym.
  unfold scrape_daily_returns, drop_duplicates.
  cbn [drop_duplicates_from existsb map mc_Symbol].
  unfold fetch at 1. rewrite Hempty. reflexivity.
Qed.

End MainProperties.

Lemma main_short_table_witness :
  main (fun s : string => s) sample_search sample_history four_companies
  = Raise IndexError.
Proof.
  apply main_short_table. simpl. lia.
Defined.

Lemma main_first_row_witness :
  match fetch failing_search sample_history
              (sm_Symbol (resolved_row (fun s : string => s) failing_search
                                       "Alpha plc"))
              "01/01/2014" "01/07/2021" with
  | Raise e =>
      main (fun s : string => s) failing_search sample_history hundred_rows
      = Raise e
  | Ok _ =>
      exists t,
        main (fun s : string => s) failing_search sample_history hundred_rows
        = Ok t
  end.
Proof.
  apply (@main_first_row string (fun s => s) failing_search Z sample_history
           (mkMembershipRecord "2014-01-31" "Alpha plc")
           (repeat (mkMembershipRecord "2014-01-31" "Alpha plc") 99)).
  simpl. lia.
Defined.

Lemma main_first_company_unresolved_witness :
  main (fun s : string => s) failing_search sample_history hundred_rows
  = Raise ExternalError.
Proof.
  apply (@main_first_company_unresolved string (fun s => s) failing_search
           Z sample_history
           (mkMembershipRecord "2014-01-31" "Alpha plc")
           (repeat (mkMembershipRecord "2014-01-31" "Alpha plc") 99)
           ExternalError).
  - simpl. lia.
  - reflexivity.
  - reflexivity.
Defined.
